(** * Research paper assistant backend (server.js)

    A shallow embedding of the text post-processing and of the request
    handlers of [research-paper-assistant/backend/server.js].

    Strings.  A JavaScript string is a sequence of UTF-16 code units.  The
    development works on Stdlib's [string], whose characters are read as the
    code units U+0000 .. U+00FF (Latin-1): on that range [length] counts
    code units, [toLowerCase] maps unit by unit and [trim] removes exactly
    the seven white space and line terminator units below. *)

From Stdlib Require Import List String Ascii Bool Arith Lia.
Import ListNotations.
Open Scope list_scope.
Open Scope string_scope.

(** ** JavaScript string primitives *)

Module JsString.

Definition LF : string := String "010"%char EmptyString.

Definition in_range (lo hi n : nat) : bool := ((lo <=? n) && (n <=? hi))%nat.

(** [String.prototype.toLowerCase] on one Latin-1 code unit: A-Z and
    U+00C0 .. U+00DE except the multiplication sign U+00D7. *)
Definition lower_unit (c : ascii) : ascii :=
  let n := nat_of_ascii c in
  if in_range 65 90 n || (in_range 192 222 n && negb (n =? 215)%nat)
  then ascii_of_nat (n + 32) else c.

Fixpoint toLowerCase (s : string) : string :=
  match s with
  | EmptyString => EmptyString
  | String c s' => String (lower_unit c) (toLowerCase s')
  end.

(** [s.startsWith(search)] *)
Fixpoint startsWith (s search : string) {struct search} : bool :=
  match search with
  | EmptyString => true
  | String a search' =>
      match s with
      | EmptyString => false
      | String b s' => Ascii.eqb a b && startsWith s' search'
      end
  end.

(** [s.includes(search)] *)
Fixpoint includes (s search : string) : bool :=
  if startsWith s search then true
  else match s with
       | EmptyString => false
       | String _ s' => includes s' search
       end.

(** White space and line terminators removed by [trim]: TAB, LF, VT, FF,
    CR, SP and NBSP. *)
Definition is_space (c : ascii) : bool :=
  let n := nat_of_ascii c in
  in_range 9 13 n || (n =? 32)%nat || (n =? 160)%nat.

Fixpoint trimStart (s : string) : string :=
  match s with
  | EmptyString => EmptyString
  | String c s' => if is_space c then trimStart s' else s
  end.

Fixpoint trimEnd (s : string) : string :=
  match s with
  | EmptyString => EmptyString
  | String c s' =>
      match trimEnd s' with
      | EmptyString => if is_space c then EmptyString else String c EmptyString
      | t => String c t
      end
  end.

Definition trim (s : string) : string := trimEnd (trimStart s).

Fixpoint drop (n : nat) (s : string) : string :=
  match n, s with
  | S n', String _ s' => drop n' s'
  | _, _ => s
  end.

(** [cut sep s] splits [s] around the leftmost occurrence of [sep]. *)
Fixpoint cut (sep s : string) : option (string * string) :=
  if startsWith s sep then Some (EmptyString, drop (String.length sep) s)
  else match s with
       | EmptyString => None
       | String c s' =>
           match cut sep s' with
           | Some (a, b) => Some (String c a, b)
           | None => None
           end
       end.

(** [s.split(sep)] for a non-empty separator: the pieces between the
    successive, non-overlapping occurrences of [sep], found left to right. *)
Fixpoint split_fuel (fuel : nat) (sep s : string) : list string :=
  match cut sep s with
  | None => [s]
  | Some (a, b) =>
      match fuel with
      | O => [s]
      | S fuel' => a :: split_fuel fuel' sep b
      end
  end.

Definition split (sep s : string) : list string :=
  split_fuel (String.length s) sep s.

(** [parts.join(sep)] *)
Definition join (sep : string) (parts : list string) : string :=
  concat sep parts.

(** ToBoolean on a string *)
Definition truthy (s : string) : bool :=
  match s with EmptyString => false | _ => true end.

End JsString.
Import JsString.

(** ** Paper segmenter *)

Definition PAPER_SECTIONS : list string :=
  [ "Abstract"; "Introduction"; "Literature Review"; "Methodology";
    "Results"; "Discussion"; "Conclusion"; "References" ].

(** The callback of [PAPER_SECTIONS.find] *)
Definition mentions (line title : string) : bool :=
  includes (toLowerCase line) (toLowerCase title) &&
  (String.length line <? String.length title + 10)%nat.

Definition sectionMatch (line : string) : option string :=
  find (mentions line) PAPER_SECTIONS.

(** The object [sections]: string keys in insertion order; assigning to a
    key that is present replaces its value in place. *)
Definition Sections : Type := list (string * string).

Fixpoint obj_get (k : string) (o : Sections) : option string :=
  match o with
  | [] => None
  | (k', v) :: o' => if String.eqb k' k then Some v else obj_get k o'
  end.

Fixpoint obj_set (k v : string) (o : Sections) : Sections :=
  match o with
  | [] => [(k, v)]
  | (k', v') :: o' =>
      if String.eqb k' k then (k, v) :: o' else (k', v') :: obj_set k v o'
  end.

Definition keys (o : Sections) : list string := map fst o.

Record SegState : Type := mkSeg {
  sections : Sections;
  currentSection : string;
  currentContent : list string
}.

Definition seg_init : SegState := mkSeg [] EmptyString [].

(** [if (currentSection) sections[currentSection] = currentContent.join('\n').trim()] *)
Definition flush (st : SegState) : Sections :=
  if truthy (currentSection st)
  then obj_set (currentSection st) (trim (join LF (currentContent st))) (sections st)
  else sections st.

(** [if (sectionMatch)]: ToBoolean on the result of [find], [undefined] or
    a title. *)
Definition isHeading (line : string) : bool :=
  match sectionMatch line with
  | Some title => truthy title
  | None => false
  end.

(** The [else if (currentSection)] branch of the [forEach] callback *)
Definition seg_body (st : SegState) (line : string) : SegState :=
  if truthy (currentSection st)
  then mkSeg (sections st) (currentSection st) (currentContent st ++ [line])%list
  else st.

(** The [forEach] callback *)
Definition seg_step (st : SegState) (line : string) : SegState :=
  match sectionMatch line with
  | Some title =>
      if truthy title then mkSeg (flush st) title [] else seg_body st line
  | None => seg_body st line
  end.

Definition segmentLines (lines : list string) : Sections :=
  flush (fold_left seg_step lines seg_init).

Definition segment (content : string) : Sections :=
  segmentLines (split LF content).

(** ** Citation extractor *)

Definition is_digit (c : ascii) : bool := in_range 48 57 (nat_of_ascii c).

(** The pattern [\((\d{4})\)] tried at the head of [s]; the result is
    capture group 1. *)
Definition year_here (s : string) : option string :=
  match s with
  | String p (String d1 (String d2 (String d3 (String d4 (String q _))))) =>
      if (p =? "(")%char && is_digit d1 && is_digit d2 && is_digit d3 &&
         is_digit d4 && (q =? ")")%char
      then Some (String d1 (String d2 (String d3 (String d4 EmptyString))))
      else None
  | _ => None
  end.

(** [citation.match(/\((\d{4})\)/)]: the leftmost position where the
    pattern matches. *)
Fixpoint yearMatch (s : string) : option string :=
  match year_here s with
  | Some y => Some y
  | None =>
      match s with
      | EmptyString => None
      | String _ s' => yearMatch s'
      end
  end.

Module Citation.

Record t : Type := mk {
  text : string;
  type : string;
  year : string;
  authors : string;
  title : string
}.

End Citation.

(** [v || EmptyString] on an optional-chaining result *)
Definition or_empty (v : option string) : string :=
  match v with
  | Some t => if truthy t then t else EmptyString
  | None => EmptyString
  end.

(** [citation.split(').')[1]?.split('.')[0]?.trim()] *)
Definition title_chain (citation : string) : option string :=
  match nth_error (split ")." citation) 1 with
  | Some rest =>
      match nth_error (split "." rest) 0 with
      | Some t => Some (trim t)
      | None => None
      end
  | None => None
  end.

(** The [map] callback.  [split] never returns an empty array, so element 0
    of [citation.split('(')] is always a string. *)
Definition parseCitation (citation : string) : Citation.t :=
  Citation.mk
    citation
    "article"
    (match yearMatch citation with Some y => y | None => EmptyString end)
    (trim (nth 0 (split "(" citation) EmptyString))
    (or_empty (title_chain citation)).

Definition extractCitations (content : string) : list Citation.t :=
  map parseCitation (filter (fun citation => truthy (trim citation)) (split LF content)).

(** ** Request handlers *)

(** Values of the fields read from [req.body]: the primitive JSON values,
    and [undefined] for a field that is absent; array and object values of
    these fields are left out.  A number is carried by its ToString
    rendering, which fixes it up to the sign of zero; the handlers observe
    numbers through ToBoolean and ToString only. *)
Inductive JsValue : Type :=
  | JUndefined
  | JNull
  | JBool (b : bool)
  | JNum (repr : string)
  | JStr (s : string).

Definition ToBoolean (v : JsValue) : bool :=
  match v with
  | JUndefined | JNull => false
  | JBool b => b
  | JNum repr => negb (String.eqb repr "0" || String.eqb repr "NaN")
  | JStr s => truthy s
  end.

Definition ToString (v : JsValue) : string :=
  match v with
  | JUndefined => "undefined"
  | JNull => "null"
  | JBool true => "true"
  | JBool false => "false"
  | JNum repr => repr
  | JStr s => s
  end.

(** [a || b] *)
Definition js_or (a b : JsValue) : JsValue := if ToBoolean a then a else b.

Record ChatMessage : Type := mkMessage { role : string; content : string }.

Module Gemini.

(** One item of the [contents] array posted to the provider *)
Record Content : Type := mkContent { role : string; parts : list string }.

End Gemini.

(** What awaiting [geminiClient.post] and reading
    [response.data.candidates[0].content.parts[0].text] gives: a failure
    (network error, error status, missing candidate) or the value read. *)
Inductive Outcome : Type :=
  | Thrown
  | Replied (text : JsValue).

(** Handler code: it returns, throws, or posts to the provider and goes on
    with the outcome. *)
Inductive Prog (A : Type) : Type :=
  | Ret (a : A)
  | Throw
  | Post (contents : list Gemini.Content) (k : Outcome -> Prog A).

Arguments Ret {A} a.
Arguments Throw {A}.
Arguments Post {A} contents k.

Fixpoint bind {A B : Type} (p : Prog A) (f : A -> Prog B) : Prog B :=
  match p with
  | Ret a => f a
  | Throw => Throw
  | Post contents k => Post contents (fun o => bind (k o) f)
  end.

Notation "x <- p ;; q" := (bind p (fun x => q))
  (at level 61, p at next level, right associativity).

(** [try { p } catch (error) { handler }] *)
Fixpoint try_catch {A : Type} (p : Prog A) (handler : Prog A) : Prog A :=
  match p with
  | Ret a => Ret a
  | Throw => handler
  | Post contents k => Post contents (fun o => try_catch (k o) handler)
  end.

(** [gemini.chat.completions.create]: of [params] only [messages] is read. *)
Definition create (messages : list ChatMessage) : Prog JsValue :=
  Post
    (map (fun msg =>
            Gemini.mkContent
              (if String.eqb (role msg) "system" then "user" else role msg)
              [content msg])
         messages)
    (fun o => match o with
              | Thrown => Throw
              | Replied text => Ret text
              end).

Inductive ResBody : Type :=
  | ErrorBody (error : string)
  | PaperBody (success : bool) (paper : Sections)
  | ImprovedBody (improved : JsValue) (changes : list JsValue).

(** [res.status(status).json(body)]; [res.json] alone leaves the status 200. *)
Record Response : Type := mkResponse { status : nat; body : ResBody }.

Record GenerateBody : Type := mkGenerateBody { topic : JsValue }.

Definition generate_system_prompt : string :=
  "You are an expert academic writer. Generate a complete research paper with the following sections: Abstract, Introduction, Literature Review, Methodology, Results, Discussion, Conclusion, and References. Use formal academic language and maintain coherence between sections.".

(** [app.post('/generate-paper')].  [content.split] throws when the
    provider's text is not a string. *)
Definition generate_paper (req : GenerateBody) : Prog Response :=
  try_catch
    (if negb (ToBoolean (topic req))
     then Ret (mkResponse 400 (ErrorBody "Topic is required"))
     else
       response <- create
         [ mkMessage "system" generate_system_prompt;
           mkMessage "user"
             ("Generate a complete research paper about: " ++
              ToString (topic req) ++ ". Include all sections.") ] ;;
       match response with
       | JStr content => Ret (mkResponse 200 (PaperBody true (segment content)))
       | _ => Throw
       end)
    (Ret (mkResponse 500 (ErrorBody "Failed to generate paper"))).

Record Context : Type := mkContext {
  sectionTitle : JsValue;
  paperTitle : JsValue;
  abstract : JsValue
}.

(** The fields destructured from [req.body]; [context] is [None] when the
    field is absent or is not an object, where all three hints come out
    [undefined]. *)
Record ImproveBody : Type := mkImproveBody {
  prompt : JsValue;
  text : JsValue;
  aspect : JsValue;
  context : option Context
}.

Definition DQ : string := String "034"%char EmptyString.

Definition systemPrompt (ctx : Context) : string :=
  "You are an expert academic writer working on " ++
  (if ToBoolean (paperTitle ctx)
   then "a paper titled " ++ DQ ++ ToString (paperTitle ctx) ++ DQ
   else "a research paper") ++ "." ++ LF ++
  (if ToBoolean (abstract ctx)
   then "The paper's abstract: " ++ DQ ++ ToString (abstract ctx) ++ DQ
   else EmptyString) ++ LF ++
  (if ToBoolean (sectionTitle ctx)
   then "Currently working on: " ++ ToString (sectionTitle ctx)
   else EmptyString).

(** [app.post('/api/ai/improve-writing')] *)
Definition improve_writing (req : ImproveBody) : Prog Response :=
  try_catch
    (let contentToImprove := js_or (prompt req) (text req) in
     if negb (ToBoolean contentToImprove) || negb (ToBoolean (aspect req))
     then Ret (mkResponse 400
                 (ErrorBody "Content to improve and writing aspect are required"))
     else
       let ctx := match context req with
                  | Some c => c
                  | None => mkContext JUndefined JUndefined JUndefined
                  end in
       improvedText <- create
         [ mkMessage "system" (systemPrompt ctx);
           mkMessage "user"
             ("Improve this academic writing:" ++ LF ++ LF ++
              ToString contentToImprove) ] ;;
       Ret (mkResponse 200 (ImprovedBody improvedText [aspect req])))
    (Ret (mkResponse 500 (ErrorBody "Failed to improve writing"))).

(** Running a handler against a provider: the value returned, if any, and
    the requests posted, in order. *)
Fixpoint run {A : Type} (provider : list Gemini.Content -> Outcome)
    (p : Prog A) : option A * list (list Gemini.Content) :=
  match p with
  | Ret a => (Some a, [])
  | Throw => (None, [])
  | Post contents k =>
      let (r, posted) := run provider (k (provider contents)) in
      (r, contents :: posted)
  end.

Definition result {A : Type} provider (p : Prog A) : option A :=
  fst (run provider p).

Definition posted {A : Type} provider (p : Prog A) : list (list Gemini.Content) :=
  snd (run provider p).

(** ** The handlers without validation *)

Module FetchCitations.

Record Request : Type := mkRequest { topic : JsValue }.

Inductive Body : Type :=
  | ErrorBody (error : string)
  | CitationsBody (citations : list Citation.t).

Record Response : Type := mkResponse { status : nat; body : Body }.

End FetchCitations.



Module FormatPaper.

Record Request (Paper : Type) : Type :=
  mkRequest { paper : Paper; style : JsValue }.

Arguments mkRequest {Paper} paper style.
Arguments paper {Paper} r.
Arguments style {Paper} r.

Inductive Body : Type :=
  | ErrorBody (error : string)
  | FormattedBody (formattedPaper : JsValue).

Record Response : Type := mkResponse { status : nat; body : Body }.

End FormatPaper.

Section FormatPaperHandler.

(** The [paper] field is any JSON value; the handler only passes it to
    [JSON.stringify], whose result (a string, or [undefined]) is
    interpolated. *)
Variable Paper : Type.
Variable JSON_stringify : Paper -> JsValue.


End FormatPaperHandler.

(** ** Further specification-side notions *)

(** The titles matched by the lines of a text, in text order. *)
Definition headings (lines : list string) : list string :=
  flat_map (fun line => match sectionMatch line with
                        | Some title => [title]
                        | None => []
                        end) lines.

(** Appending a key unless it is there already. *)
Definition add_key (seen : list string) (k : string) : list string :=
  if in_dec string_dec k seen then seen else (seen ++ [k])%list.

(** Each element once, in the order of first appearance. *)
Definition first_seen (l : list string) : list string :=
  fold_left add_key l [].


(** ** Specification-side notions *)

(** [title] occurs in [line] up to letter case. *)
Definition ci_substring (title line : string) : Prop :=
  exists pre mid post,
    line = pre ++ mid ++ post /\ toLowerCase mid = toLowerCase title.

(** The heading predicate of the segmenter, for one title. *)
Definition heading_for (title line : string) : Prop :=
  ci_substring title line /\ String.length line < String.length title + 10.

(** The lines that follow a heading, up to the next heading or the end:
    what the accumulator holds when that section is flushed. *)
Fixpoint body_lines (rest : list string) : list string :=
  match rest with
  | [] => []
  | line :: rest' => if isHeading line then [] else line :: body_lines rest'
  end.

Fixpoint all_space (s : string) : bool :=
  match s with
  | EmptyString => true
  | String c s' => is_space c && all_space s'
  end.

Definition starts_with_space (s : string) : bool :=
  match s with
  | EmptyString => false
  | String c _ => is_space c
  end.

Fixpoint ends_with_space (s : string) : bool :=
  match s with
  | EmptyString => false
  | String c EmptyString => is_space c
  | String _ s' => ends_with_space s'
  end.

(** The text of [s] before the leftmost occurrence of [sep], all of [s]
    when there is none. *)
Definition upto (sep s : string) : string :=
  match cut sep s with
  | Some (a, _) => a
  | None => s
  end.

Definition four_digits (y : string) : bool :=
  match y with
  | String d1 (String d2 (String d3 (String d4 EmptyString))) =>
      is_digit d1 && is_digit d2 && is_digit d3 && is_digit d4
  | _ => false
  end.

(** [line] holds the parenthesized four-digit sequence [y] after [pre]. *)
Definition year_at (line pre y : string) : Prop :=
  four_digits y = true /\ exists post, line = pre ++ "(" ++ y ++ ")" ++ post.

(** The title as the specification words it: the text after the first
    [).] and before the next [.], trimmed; empty when either delimiter is
    absent. *)
Definition spec_title (citation : string) : string :=
  match cut ")." citation with
  | Some (_, rest) =>
      match cut "." rest with
      | Some (t, _) => trim t
      | None => EmptyString
      end
  | None => EmptyString
  end.

(** The two client-error answers *)
Definition topic_required : Response :=
  mkResponse 400 (ErrorBody "Topic is required").

Definition content_required : Response :=
  mkResponse 400 (ErrorBody "Content to improve and writing aspect are required").

(** Invariant of the segmentation loop over the lines [processed] so far:
    every stored body is the trimmed join of the lines between a heading
    for its key and a later heading ... *)
Definition flushed_ok (processed : list string) (o : Sections) : Prop :=
  forall k v, In (k, v) o ->
    exists b h a,
      processed = (b ++ h :: a)%list /\ sectionMatch h = Some k /\
      Exists (fun l => isHeading l = true) a /\
      v = trim (join LF (body_lines a)).

(** ... and the accumulator holds the lines since the heading of the
    current section. *)
Definition current_ok (processed : list string) (st : SegState) : Prop :=
  truthy (currentSection st) = true ->
  exists b h,
    processed = (b ++ h :: currentContent st)%list /\
    sectionMatch h = Some (currentSection st) /\
    Forall (fun l => isHeading l = false) (currentContent st).

(** * Properties *)

(** ** Strings *)

Section StringFacts.

Lemma append_nil_r (s : string) : s ++ EmptyString = s.
Proof. induction s as [|c s IH]; simpl; [reflexivity | now rewrite IH]. Qed.

Lemma append_assoc (a b c : string) : (a ++ b) ++ c = a ++ (b ++ c).
Proof. induction a as [|x a IH]; simpl; [reflexivity | now rewrite IH]. Qed.

Lemma length_append (a b : string) :
  String.length (a ++ b) = String.length a + String.length b.
Proof. induction a as [|x a IH]; simpl; [reflexivity | now rewrite IH]. Qed.

Lemma startsWith_iff (h n : string) :
  startsWith h n = true <-> exists post, h = n ++ post.
Proof.
  revert h; induction n as [|a n IH]; intros h; simpl.
  - split; [intros _; now exists h | intros _; reflexivity].
  - destruct h as [|b h].
    + split; [discriminate | intros [post H]; discriminate].
    + rewrite andb_true_iff, Ascii.eqb_eq, IH. split.
      * intros [-> [post ->]]. now exists post.
      * intros [post H]. injection H as -> ->. split; [reflexivity | now exists post].
Qed.

Lemma includes_iff (h n : string) :
  includes h n = true <-> exists pre post, h = pre ++ n ++ post.
Proof.
  induction h as [|c h IH]; cbn [includes].
  - destruct (startsWith EmptyString n) eqn:Hp.
    + split; [intros _ | intros _; reflexivity].
      apply startsWith_iff in Hp. destruct Hp as [post Hp]. now exists EmptyString, post.
    + split; [discriminate |]. intros (pre & post & H).
      destruct pre; [| discriminate]. simpl in H.
      assert (startsWith EmptyString n = true) by (apply startsWith_iff; now exists post).
      congruence.
  - destruct (startsWith (String c h) n) eqn:Hp.
    + split; [intros _ | intros _; reflexivity].
      apply startsWith_iff in Hp. destruct Hp as [post Hp]. now exists EmptyString, post.
    + rewrite IH. split.
      * intros (pre & post & ->). now exists (String c pre), post.
      * intros (pre & post & H). destruct pre as [|x pre]; simpl in H.
        -- assert (startsWith (String c h) n = true) by (apply startsWith_iff; now exists post).
           congruence.
        -- injection H; intros; subst. now exists pre, post.
Qed.

Lemma toLowerCase_append (a b : string) :
  toLowerCase (a ++ b) = toLowerCase a ++ toLowerCase b.
Proof. induction a as [|x a IH]; simpl; [reflexivity | now rewrite IH]. Qed.

Lemma toLowerCase_split (s a b : string) :
  toLowerCase s = a ++ b ->
  exists a' b', s = a' ++ b' /\ toLowerCase a' = a /\ toLowerCase b' = b.
Proof.
  revert s; induction a as [|x a IH]; intros s H; simpl in H.
  - now exists EmptyString, s.
  - destruct s as [|c s]; simpl in H; [discriminate |].
    injection H as Hc Hs. destruct (IH _ Hs) as (a' & b' & -> & <- & <-).
    exists (String c a'), b'. simpl. now rewrite Hc.
Qed.

Lemma includes_lower_iff (line title : string) :
  includes (toLowerCase line) (toLowerCase title) = true <->
  ci_substring title line.
Proof.
  rewrite includes_iff. unfold ci_substring. split.
  - intros (pre & post & H).
    apply toLowerCase_split in H. destruct H as (pre' & r & -> & _ & Hr).
    apply toLowerCase_split in Hr. destruct Hr as (mid & post' & -> & Hm & _).
    now exists pre', mid, post'.
  - intros (pre & mid & post & -> & Hm).
    exists (toLowerCase pre), (toLowerCase post).
    now rewrite !toLowerCase_append, Hm.
Qed.

End StringFacts.

(** ** Heading detection *)

Lemma mentions_iff (line title : string) :
  mentions line title = true <-> heading_for title line.
Proof.
  unfold mentions, heading_for.
  rewrite andb_true_iff, includes_lower_iff, Nat.ltb_lt. reflexivity.
Qed.

Lemma titles_truthy (title : string) :
  In title PAPER_SECTIONS -> truthy title = true.
Proof.
  unfold PAPER_SECTIONS; simpl.
  intros H; repeat (destruct H as [<-|H]; [reflexivity |]); contradiction.
Qed.

Lemma find_first {A : Type} (f : A -> bool) (l : list A) (x : A) :
  find f l = Some x <->
  exists before after,
    l = (before ++ x :: after)%list /\ f x = true /\
    Forall (fun y => f y = false) before.
Proof.
  induction l as [|a l IH]; simpl.
  - split; [discriminate |]. intros (b & r & H & _). now destruct b.
  - destruct (f a) eqn:Ha.
    + split.
      * intros [= ->]. now exists [], l.
      * intros (b & r & H & Hx & Hb). destruct b as [|y b]; simpl in H.
        -- now injection H as ->.
        -- injection H as -> _. inversion Hb; congruence.
    + rewrite IH. split.
      * intros (b & r & -> & Hx & Hb). exists (a :: b), r. auto.
      * intros (b & r & H & Hx & Hb). destruct b as [|y b]; simpl in H.
        -- injection H as -> _. congruence.
        -- injection H as -> ->. inversion Hb; subst. now exists b, r.
Qed.

Lemma sectionMatch_some (line title : string) :
  sectionMatch line = Some title ->
  In title PAPER_SECTIONS /\ mentions line title = true.
Proof. intros H. apply find_some in H. exact H. Qed.

Lemma isHeading_some (line : string) :
  isHeading line = true <-> exists title, sectionMatch line = Some title.
Proof.
  unfold isHeading. destruct (sectionMatch line) as [t|] eqn:H.
  - split; [intros _; now exists t | intros _].
    apply titles_truthy. now apply sectionMatch_some in H.
  - split; [discriminate | intros [t Ht]; discriminate].
Qed.

Lemma seg_step_heading (st : SegState) (line title : string) :
  sectionMatch line = Some title ->
  seg_step st line = mkSeg (flush st) title [].
Proof.
  intros H. unfold seg_step. rewrite H.
  now rewrite (titles_truthy title) by (now apply sectionMatch_some in H).
Qed.

Lemma seg_step_body (st : SegState) (line : string) :
  isHeading line = false -> seg_step st line = seg_body st line.
Proof.
  unfold isHeading, seg_step. destruct (sectionMatch line) as [t|]; [|reflexivity].
  now intros ->.
Qed.

(** C1.  A line is treated as a heading exactly when some canonical title
    occurs in it up to letter case and the line is shorter than that
    title's length plus 10.  Such a line starts a new section, whatever its
    formatting: the accumulator is flushed, the cursor moves to a matching
    title and the accumulator is reset.  Any other line takes the body
    branch. *)
Theorem heading_heuristic (line : string) :
  (isHeading line = true <->
   exists title, In title PAPER_SECTIONS /\ heading_for title line) /\
  (forall st, isHeading line = true ->
     exists title,
       In title PAPER_SECTIONS /\ heading_for title line /\
       seg_step st line = mkSeg (flush st) title []) /\
  (forall st, isHeading line = false -> seg_step st line = seg_body st line).
Proof.
  assert (Hsome : isHeading line = true ->
            exists title, In title PAPER_SECTIONS /\ heading_for title line /\
                          sectionMatch line = Some title).
  { rewrite isHeading_some. intros [t Ht]. exists t.
    destruct (sectionMatch_some _ _ Ht) as [Hin Hm].
    now rewrite <- mentions_iff. }
  split; [split | split].
  - intros H. destruct (Hsome H) as (t & Hin & Hf & _). now exists t.
  - intros (t & Hin & Hf). apply isHeading_some.
    destruct (sectionMatch line) as [t'|] eqn:Hs; [now exists t' |].
    apply mentions_iff in Hf.
    pose proof (find_none _ _ Hs t Hin) as Hn. simpl in Hn. congruence.
  - intros st H. destruct (Hsome H) as (t & Hin & Hf & Hs).
    exists t. split; [exact Hin | split; [exact Hf |]].
    now apply seg_step_heading.
  - intros st. apply seg_step_body.
Qed.

(** A short body line that merely names a section is taken for a heading. *)
Example heading_false_positive :
  isHeading "See the results" = true /\
  sectionMatch "See the results" = Some "Results".
Proof. split; vm_compute; reflexivity. Qed.

Example heading_too_long :
  isHeading "The results are discussed below." = false.
Proof. vm_compute. reflexivity. Qed.

(** C2.  When the heading predicate holds for more than one canonical
    title, the section selected is the first of them in the order of
    [PAPER_SECTIONS]: every title listed before it fails the predicate. *)
Theorem tie_break_canonical_order (line t1 t2 : string) :
  In t1 PAPER_SECTIONS -> In t2 PAPER_SECTIONS -> t1 <> t2 ->
  heading_for t1 line -> heading_for t2 line ->
  exists before title after,
    PAPER_SECTIONS = (before ++ title :: after)%list /\
    heading_for title line /\
    (forall t, In t before -> ~ heading_for t line) /\
    sectionMatch line = Some title /\
    forall st, seg_step st line = mkSeg (flush st) title [].
Proof.
  intros H1 _ _ Hf1 _.
  destruct (sectionMatch line) as [t|] eqn:Hs.
  - pose proof Hs as Hfind. unfold sectionMatch in Hfind.
    apply find_first in Hfind. destruct Hfind as (b & a & Heq & Hm & Hb).
    exists b, t, a.
    split; [exact Heq |]. split; [now apply mentions_iff |].
    split; [| split; [reflexivity | intros st; now apply seg_step_heading]].
    intros t' Hin Hf'. apply mentions_iff in Hf'.
    rewrite Forall_forall in Hb. specialize (Hb _ Hin). simpl in Hb. congruence.
  - apply mentions_iff in Hf1.
    pose proof (find_none _ _ Hs t1 H1) as Hn. simpl in Hn. congruence.
Qed.

Lemma tie_break_witness :
  exists before title after,
    PAPER_SECTIONS = (before ++ title :: after)%list /\
    heading_for title "Results Abstract" /\
    (forall t, In t before -> ~ heading_for t "Results Abstract") /\
    sectionMatch "Results Abstract" = Some title /\
    forall st, seg_step st "Results Abstract" = mkSeg (flush st) title [].
Proof.
  apply (tie_break_canonical_order "Results Abstract" "Abstract" "Results").
  - simpl; auto.
  - simpl; auto 10.
  - discriminate.
  - apply mentions_iff. vm_compute. reflexivity.
  - apply mentions_iff. vm_compute. reflexivity.
Defined.

(** The selected title need not be the one met first in the line. *)
Example tie_break_not_line_order :
  sectionMatch "Results Abstract" = Some "Abstract" /\
  mentions "Results Abstract" "Results" = true.
Proof. split; vm_compute; reflexivity. Qed.

(** ** The sections object *)

Section SectionsObject.

Lemma obj_get_set_same (k v : string) (o : Sections) :
  obj_get k (obj_set k v o) = Some v.
Proof.
  induction o as [|[k' v'] o IH]; simpl.
  - now rewrite String.eqb_refl.
  - destruct (String.eqb k' k) eqn:E; simpl; rewrite ?String.eqb_refl, ?E; auto.
Qed.

Lemma obj_get_set_other (k k' v : string) (o : Sections) :
  k <> k' -> obj_get k (obj_set k' v o) = obj_get k o.
Proof.
  intros Hne. induction o as [|[k0 v0] o IH]; simpl.
  - apply String.eqb_neq in Hne. now rewrite String.eqb_sym, Hne.
  - destruct (String.eqb k0 k') eqn:E; simpl.
    + apply String.eqb_eq in E; subst k0.
      assert (String.eqb k' k = false) as -> by (apply String.eqb_neq; congruence).
      reflexivity.
    + now rewrite IH.
Qed.

Lemma obj_set_in (k v k' v' : string) (o : Sections) :
  In (k', v') (obj_set k v o) -> (k', v') = (k, v) \/ In (k', v') o.
Proof.
  induction o as [|[k0 v0] o IH]; simpl.
  - intros [H|[]]; auto.
  - destruct (String.eqb k0 k); simpl; intros [H|H]; auto.
    destruct (IH H); auto.
Qed.

Lemma keys_obj_set (k v : string) (o : Sections) :
  forall x, In x (keys (obj_set k v o)) <-> x = k \/ In x (keys o).
Proof.
  intros x. induction o as [|[k0 v0] o IH]; simpl.
  - intuition.
  - destruct (String.eqb k0 k) eqn:E; simpl.
    + apply String.eqb_eq in E; subst. intuition.
    + rewrite IH. intuition.
Qed.

Lemma obj_set_NoDup (k v : string) (o : Sections) :
  NoDup (keys o) -> NoDup (keys (obj_set k v o)).
Proof.
  induction o as [|[k0 v0] o IH]; simpl; intros H.
  - constructor; [intros [] | constructor].
  - inversion H as [|? ? Hnin Hnd]; subst.
    destruct (String.eqb k0 k) eqn:E; simpl.
    + apply String.eqb_eq in E; subst. now constructor.
    + constructor; [| now apply IH].
      intros Hin. apply (keys_obj_set k v o) in Hin. destruct Hin as [->|Hin].
      * now rewrite String.eqb_refl in E.
      * contradiction.
Qed.

Lemma obj_get_in_keys (k v : string) (o : Sections) :
  obj_get k o = Some v -> In k (keys o).
Proof.
  induction o as [|[k0 v0] o IH]; simpl; [discriminate |].
  destruct (String.eqb k0 k) eqn:E.
  - apply String.eqb_eq in E. auto.
  - auto.
Qed.

End SectionsObject.

(** ** The segmentation loop *)

Lemma flush_get_current (st : SegState) :
  truthy (currentSection st) = true ->
  obj_get (currentSection st) (flush st)
  = Some (trim (join LF (currentContent st))).
Proof. intros H. unfold flush. rewrite H. apply obj_get_set_same. Qed.

Lemma flush_get_other (st : SegState) (k : string) :
  k <> currentSection st -> obj_get k (flush st) = obj_get k (sections st).
Proof.
  intros H. unfold flush. destruct (truthy (currentSection st)); [|reflexivity].
  now apply obj_get_set_other.
Qed.

Lemma flush_NoDup (st : SegState) :
  NoDup (keys (sections st)) -> NoDup (keys (flush st)).
Proof.
  unfold flush. destruct (truthy (currentSection st)); [|auto].
  apply obj_set_NoDup.
Qed.

Lemma seg_step_cases (st : SegState) (line : string) :
  (exists title, sectionMatch line = Some title /\ isHeading line = true /\
                 seg_step st line = mkSeg (flush st) title []) \/
  (isHeading line = false /\ seg_step st line = seg_body st line).
Proof.
  destruct (isHeading line) eqn:H.
  - left. apply isHeading_some in H. destruct H as [t Ht].
    exists t. repeat split; [assumption | now apply seg_step_heading].
  - right. split; [reflexivity | now apply seg_step_body].
Qed.

(** Once flushed, a section is untouched while no later line is detected as
    a heading for it. *)
Lemma flushed_section_kept (title v : string) (lines : list string) :
  forall st,
    currentSection st <> title ->
    obj_get title (sections st) = Some v ->
    Forall (fun l => sectionMatch l <> Some title) lines ->
    obj_get title (flush (fold_left seg_step lines st)) = Some v.
Proof.
  induction lines as [|l lines IH]; intros st Hcur Hget Hall; simpl.
  - rewrite flush_get_other; auto.
  - inversion Hall as [|? ? Hl Hrest]; subst.
    apply IH; try assumption;
      destruct (seg_step_cases st l) as [(t & Hs & _ & ->)|[_ ->]]; simpl.
    + congruence.
    + unfold seg_body. now destruct (truthy (currentSection st)).
    + rewrite flush_get_other; auto.
    + unfold seg_body. now destruct (truthy (currentSection st)).
Qed.

(** While a section is current, the following lines accumulate up to the
    next heading. *)
Lemma current_section_body (title : string) (lines : list string) :
  forall st,
    currentSection st = title -> truthy title = true ->
    Forall (fun l => sectionMatch l <> Some title) lines ->
    obj_get title (flush (fold_left seg_step lines st))
    = Some (trim (join LF (currentContent st ++ body_lines lines)%list)).
Proof.
  induction lines as [|l lines IH]; intros st Hcur Ht Hall; simpl.
  - rewrite app_nil_r, <- Hcur. apply flush_get_current. now rewrite Hcur.
  - inversion Hall as [|? ? Hl Hrest]; subst.
    destruct (seg_step_cases st l) as [(t & Hs & Hh & ->)|[Hh ->]]; rewrite Hh.
    + rewrite app_nil_r. apply flushed_section_kept; simpl; try assumption.
      * congruence.
      * now apply flush_get_current.
    + unfold seg_body. rewrite Ht.
      rewrite IH by (simpl; auto). simpl. now rewrite <- app_assoc.
Qed.

Lemma fold_NoDup (lines : list string) :
  forall st, NoDup (keys (sections st)) ->
             NoDup (keys (sections (fold_left seg_step lines st))).
Proof.
  induction lines as [|l lines IH]; intros st H; simpl; [assumption |].
  apply IH. destruct (seg_step_cases st l) as [(t & _ & _ & ->)|[_ ->]]; simpl.
  - now apply flush_NoDup.
  - unfold seg_body. now destruct (truthy (currentSection st)).
Qed.

Lemma segmentLines_NoDup (lines : list string) :
  NoDup (keys (segmentLines lines)).
Proof. apply flush_NoDup, fold_NoDup. constructor. Qed.

(** Lines met while no section is current leave the state as it is. *)
Lemma preamble_skipped (pre : list string) :
  Forall (fun l => isHeading l = false) pre ->
  fold_left seg_step pre seg_init = seg_init.
Proof.
  induction pre as [|l pre IH]; intros H; simpl; [reflexivity |].
  inversion H; subst. rewrite seg_step_body by assumption. now apply IH.
Qed.

(** C5.  When a title is detected as a heading at a line and at no later
    line, whatever came before (earlier headings of the same title
    included), the returned mapping holds that title exactly once, bound to
    the trimmed join of the lines accumulated after that last heading. *)
Theorem duplicate_heading_last_wins
    (content : string) (before after : list string) (h title : string) :
  split LF content = (before ++ h :: after)%list ->
  sectionMatch h = Some title ->
  Forall (fun l => sectionMatch l <> Some title) after ->
  obj_get title (segment content) = Some (trim (join LF (body_lines after))) /\
  count_occ string_dec (keys (segment content)) title = 1.
Proof.
  intros Hsplit Hh Hafter.
  assert (Hget : obj_get title (segment content)
                 = Some (trim (join LF (body_lines after)))).
  { unfold segment, segmentLines. rewrite Hsplit, fold_left_app. simpl.
    rewrite (seg_step_heading _ _ _ Hh).
    rewrite (current_section_body title); simpl; auto.
    apply titles_truthy. now apply sectionMatch_some in Hh. }
  split; [exact Hget |].
  apply NoDup_count_occ'.
  - apply segmentLines_NoDup.
  - eapply obj_get_in_keys, Hget.
Qed.

Lemma duplicate_heading_witness :
  let content := "## Abstract" ++ LF ++ "old" ++ LF ++ "Abstract" ++ LF ++ "new" in
  obj_get "Abstract" (segment content)
  = Some (trim (join LF (body_lines ["new"]))) /\
  count_occ string_dec (keys (segment content)) "Abstract" = 1.
Proof.
  apply (duplicate_heading_last_wins _ ["## Abstract"; "old"] ["new"]
           "Abstract" "Abstract").
  - reflexivity.
  - reflexivity.
  - repeat constructor. vm_compute. discriminate.
Defined.

Example duplicate_heading_overwrites :
  segment ("## Abstract" ++ LF ++ "old" ++ LF ++ "Abstract" ++ LF ++ "new")
  = [("Abstract", "new")].
Proof. vm_compute. reflexivity. Qed.

Example segment_two_sections :
  segment ("## Abstract" ++ LF ++ "Foo" ++ LF ++ "## Introduction" ++ LF ++ "Bar")
  = [("Abstract", "Foo"); ("Introduction", "Bar")].
Proof. vm_compute. reflexivity. Qed.

(** C6.  Lines before the first detected heading contribute to no section:
    the result is that of the remaining lines alone; when none of the
    remaining lines is detected as a heading either, the mapping is empty. *)
Theorem preamble_dropped (content : string) (pre rest : list string) :
  split LF content = (pre ++ rest)%list ->
  Forall (fun l => isHeading l = false) pre ->
  segment content = segmentLines rest /\
  (Forall (fun l => isHeading l = false) rest -> segment content = []).
Proof.
  intros Hsplit Hpre.
  assert (H : segment content = segmentLines rest).
  { unfold segment, segmentLines.
    now rewrite Hsplit, fold_left_app, preamble_skipped. }
  split; [exact H |]. intros Hrest. rewrite H.
  unfold segmentLines. now rewrite preamble_skipped.
Qed.

Lemma preamble_dropped_witness :
  let content := "Here is your paper:" ++ LF ++ LF ++ "## Abstract" ++ LF ++ "Foo" in
  segment content = segmentLines ["## Abstract"; "Foo"] /\
  (Forall (fun l => isHeading l = false) ["## Abstract"; "Foo"] ->
   segment content = []).
Proof.
  apply (preamble_dropped _ ["Here is your paper:"; EmptyString]).
  - reflexivity.
  - repeat constructor.
Defined.

Example no_heading_empty :
  segment ("Just some text." ++ LF ++ "More text without any title.") = [].
Proof. vm_compute. reflexivity. Qed.

(** ** Trimming *)

Section Trim.

Lemma trimStart_no_lead (s : string) : starts_with_space (trimStart s) = false.
Proof.
  induction s as [|c s IH]; simpl; [reflexivity |].
  destruct (is_space c) eqn:E; [exact IH | simpl; exact E].
Qed.

Lemma trimEnd_no_trail (s : string) : ends_with_space (trimEnd s) = false.
Proof.
  induction s as [|c s IH]; simpl; [reflexivity |].
  destruct (trimEnd s) as [|d t] eqn:E.
  - destruct (is_space c) eqn:Ec; simpl; [reflexivity | exact Ec].
  - exact IH.
Qed.

Lemma trimEnd_keeps_head (s : string) :
  starts_with_space s = false -> starts_with_space (trimEnd s) = false.
Proof.
  destruct s as [|c s]; simpl; [reflexivity |]. intros Hc.
  destruct (trimEnd s); [rewrite Hc |]; simpl; assumption.
Qed.

Lemma trimStart_decomp (s : string) :
  exists lead, s = lead ++ trimStart s /\ all_space lead = true.
Proof.
  induction s as [|c s (lead & IH & Hl)]; simpl.
  - now exists EmptyString.
  - destruct (is_space c) eqn:E.
    + exists (String c lead). simpl. now rewrite E, Hl, <- IH.
    + now exists EmptyString.
Qed.

Lemma trimEnd_decomp (s : string) :
  exists trail, s = trimEnd s ++ trail /\ all_space trail = true.
Proof.
  induction s as [|c s (trail & IH & Ht)]; simpl.
  - now exists EmptyString.
  - destruct (trimEnd s) as [|d t] eqn:E.
    + simpl in IH. subst trail. destruct (is_space c) eqn:Ec.
      * exists (String c s). simpl. now rewrite Ec, Ht.
      * now exists s.
    + exists trail. simpl. split; [now rewrite IH at 1 | assumption].
Qed.

(** [trim s] is [s] less a run of white space at each end, and has none
    left at either end. *)
Lemma trim_spec (s : string) :
  (exists lead trail,
     s = lead ++ trim s ++ trail /\
     all_space lead = true /\ all_space trail = true) /\
  starts_with_space (trim s) = false /\
  ends_with_space (trim s) = false.
Proof.
  unfold trim. split; [| split].
  - destruct (trimStart_decomp s) as (lead & Hs & Hl).
    destruct (trimEnd_decomp (trimStart s)) as (trail & Ht & Htr).
    exists lead, trail. now rewrite <- Ht.
  - apply trimEnd_keeps_head, trimStart_no_lead.
  - apply trimEnd_no_trail.
Qed.

End Trim.

(** ** What the stored bodies are *)

Lemma body_lines_app_heading (a x : list string) :
  Exists (fun l => isHeading l = true) a ->
  body_lines (a ++ x) = body_lines a.
Proof.
  induction a as [|l a IH]; intros H; simpl.
  - inversion H.
  - destruct (isHeading l) eqn:E; [reflexivity |].
    inversion H; subst; [congruence |]. now rewrite IH.
Qed.

Lemma body_lines_until_heading (a x : list string) (h : string) :
  Forall (fun l => isHeading l = false) a -> isHeading h = true ->
  body_lines (a ++ h :: x) = a.
Proof.
  induction a as [|l a IH]; intros Ha Hh; simpl.
  - now rewrite Hh.
  - inversion Ha; subst. now rewrite H1, IH.
Qed.

Lemma body_lines_no_heading (a : list string) :
  Forall (fun l => isHeading l = false) a -> body_lines a = a.
Proof.
  induction a as [|l a IH]; intros Ha; simpl; [reflexivity |].
  inversion Ha; subst. now rewrite H1, IH.
Qed.

Lemma flushed_ok_more (processed more : list string) (o : Sections) :
  flushed_ok processed o -> flushed_ok (processed ++ more) o.
Proof.
  intros H k v Hin. destruct (H k v Hin) as (b & h & a & -> & Hh & Hex & ->).
  exists b, h, (a ++ more)%list. split; [| split; [exact Hh | split]].
  - now rewrite <- app_assoc.
  - apply Exists_app. now left.
  - now rewrite body_lines_app_heading.
Qed.

Lemma flushed_ok_flush (processed : list string) (st : SegState) (l : string) :
  flushed_ok processed (sections st) -> current_ok processed st ->
  isHeading l = true ->
  flushed_ok (processed ++ [l]) (flush st).
Proof.
  intros Hf Hc Hl. unfold flush.
  destruct (truthy (currentSection st)) eqn:Ht; [| now apply flushed_ok_more].
  intros k v Hin. apply obj_set_in in Hin. destruct Hin as [Heq|Hin].
  - injection Heq as -> ->. destruct (Hc Ht) as (b & h & -> & Hh & Hall).
    exists b, h, (currentContent st ++ [l])%list.
    split; [| split; [exact Hh | split]].
    + now rewrite <- app_assoc.
    + apply Exists_app. right. now constructor.
    + now rewrite body_lines_until_heading.
  - exact (flushed_ok_more processed [l] _ Hf k v Hin).
Qed.

Lemma seg_step_invariant (processed : list string) (st : SegState) (l : string) :
  flushed_ok processed (sections st) -> current_ok processed st ->
  flushed_ok (processed ++ [l]) (sections (seg_step st l)) /\
  current_ok (processed ++ [l]) (seg_step st l).
Proof.
  intros Hf Hc.
  destruct (seg_step_cases st l) as [(t & Hs & Hh & ->)|[Hh ->]]; simpl.
  - split; [now apply flushed_ok_flush |].
    intros _. simpl. exists processed, l. now repeat split.
  - unfold seg_body. destruct (truthy (currentSection st)) eqn:Ht; simpl.
    + split; [now apply flushed_ok_more |].
      intros _. simpl. destruct (Hc Ht) as (b & h & -> & Hh' & Hall).
      exists b, h. split; [now rewrite <- app_assoc | split; [exact Hh' |]].
      apply Forall_app. split; [exact Hall | now constructor].
    + split; [now apply flushed_ok_more |].
      intros Ht'. congruence.
Qed.

Lemma fold_invariant (lines : list string) :
  forall processed st,
    flushed_ok processed (sections st) -> current_ok processed st ->
    flushed_ok (processed ++ lines) (sections (fold_left seg_step lines st)) /\
    current_ok (processed ++ lines) (fold_left seg_step lines st).
Proof.
  induction lines as [|l lines IH]; intros processed st Hf Hc; simpl.
  - now rewrite app_nil_r.
  - destruct (seg_step_invariant processed st l Hf Hc) as [Hf' Hc'].
    specialize (IH _ _ Hf' Hc'). now rewrite <- app_assoc in IH.
Qed.

Lemma segmentLines_bodies (lines : list string) (k v : string) :
  In (k, v) (segmentLines lines) ->
  exists before h after,
    lines = (before ++ h :: after)%list /\ sectionMatch h = Some k /\
    v = trim (join LF (body_lines after)).
Proof.
  unfold segmentLines. intros Hin.
  assert (Hf0 : flushed_ok [] (sections seg_init)) by (intros ? ? []).
  assert (Hc0 : current_ok [] seg_init) by (intros H; discriminate).
  destruct (fold_invariant lines [] seg_init Hf0 Hc0) as [Hf Hc].
  simpl in Hf, Hc. clear Hf0 Hc0.
  remember (fold_left seg_step lines seg_init) as st eqn:Est. clear Est.
  unfold flush in Hin. destruct (truthy (currentSection st)) eqn:Ht.
  - apply obj_set_in in Hin. destruct Hin as [Heq|Hin].
    + injection Heq as -> ->. destruct (Hc Ht) as (b & h & -> & Hh & Hall).
      exists b, h, (currentContent st). now rewrite body_lines_no_heading.
    + destruct (Hf k v Hin) as (b & h & a & -> & Hh & _ & ->). now exists b, h, a.
  - destruct (Hf k v Hin) as (b & h & a & -> & Hh & _ & ->). now exists b, h, a.
Qed.

(** C8.  Every body stored in the returned mapping is the lines accumulated
    after a heading for its key (up to the next heading or the end), joined
    with newlines and trimmed: it is that join less a run of white space at
    each end, and it neither begins nor ends with white space. *)
Theorem stored_bodies_trimmed (content k v : string) :
  In (k, v) (segment content) ->
  exists before h after,
    split LF content = (before ++ h :: after)%list /\
    sectionMatch h = Some k /\
    v = trim (join LF (body_lines after)) /\
    (exists lead trail,
       join LF (body_lines after) = lead ++ v ++ trail /\
       all_space lead = true /\ all_space trail = true) /\
    starts_with_space v = false /\
    ends_with_space v = false.
Proof.
  intros Hin. apply segmentLines_bodies in Hin.
  destruct Hin as (b & h & a & Hsplit & Hh & ->).
  exists b, h, a. split; [exact Hsplit | split; [exact Hh | split; [reflexivity |]]].
  apply trim_spec.
Qed.

Lemma stored_bodies_trimmed_witness :
  exists before h after,
    split LF ("Abstract" ++ LF ++ LF ++ "  Foo " ++ LF ++ LF)
    = (before ++ h :: after)%list /\
    sectionMatch h = Some "Abstract" /\
    "Foo" = trim (join LF (body_lines after)) /\
    (exists lead trail,
       join LF (body_lines after) = lead ++ "Foo" ++ trail /\
       all_space lead = true /\ all_space trail = true) /\
    starts_with_space "Foo" = false /\
    ends_with_space "Foo" = false.
Proof.
  apply (stored_bodies_trimmed _ "Abstract" "Foo").
  vm_compute. left. reflexivity.
Defined.

(** ** Cutting and splitting *)

Example split_examples :
  split LF ("a" ++ LF) = ["a"; EmptyString] /\
  split LF EmptyString = [EmptyString] /\
  split ")." "a).b).c" = ["a"; "b"; "c"] /\
  split "aa" "aaa" = [EmptyString; "a"] /\
  split "(" "no parenthesis" = ["no parenthesis"].
Proof. repeat split. Qed.

Example paper_sections_list :
  List.length PAPER_SECTIONS = 8 /\ NoDup PAPER_SECTIONS.
Proof.
  split; [reflexivity |].
  repeat (constructor; [simpl; intuition discriminate |]). constructor.
Qed.

Section Split.

Lemma startsWith_drop (s sep : string) :
  startsWith s sep = true -> s = sep ++ drop (String.length sep) s.
Proof.
  revert s; induction sep as [|a sep IH]; intros s H; simpl in *.
  - now destruct s.
  - destruct s as [|b s]; [discriminate |].
    apply andb_true_iff in H. destruct H as [Hab Hs].
    apply Ascii.eqb_eq in Hab. subst b. now rewrite <- IH.
Qed.

Lemma cut_some (sep s a b : string) :
  cut sep s = Some (a, b) -> s = a ++ sep ++ b.
Proof.
  revert a; induction s as [|c s IH]; intros a; cbn [cut].
  - destruct (startsWith EmptyString sep) eqn:E; [| discriminate].
    intros [= <- <-]. simpl. now apply startsWith_drop.
  - destruct (startsWith (String c s) sep) eqn:E.
    + intros [= <- <-]. simpl. now apply startsWith_drop.
    + destruct (cut sep s) as [[a' b']|]; [| discriminate].
      intros [= <- <-]. simpl. now rewrite <- (IH a').
Qed.

Lemma cut_leftmost (sep s a b : string) :
  cut sep s = Some (a, b) ->
  forall a' b', s = a' ++ sep ++ b' -> String.length a <= String.length a'.
Proof.
  revert a; induction s as [|c s IH]; intros a; cbn [cut].
  - destruct (startsWith EmptyString sep); [| discriminate].
    intros [= <- <-] a' b' _. simpl. lia.
  - destruct (startsWith (String c s) sep) eqn:E.
    + intros [= <- <-] a' b' _. simpl. lia.
    + destruct (cut sep s) as [[a0 b0]|] eqn:Ec; [| discriminate].
      intros [= <- <-] a' b' H. destruct a' as [|x a']; simpl in H.
      * assert (startsWith (String c s) sep = true)
          by (apply startsWith_iff; now exists b').
        congruence.
      * injection H as _ H. simpl. apply le_n_S. now apply (IH a0 eq_refl a' b').
Qed.

Lemma cut_none (sep s : string) :
  cut sep s = None <-> includes s sep = false.
Proof.
  induction s as [|c s IH]; cbn [cut includes].
  - destruct (startsWith EmptyString sep); split; congruence.
  - destruct (startsWith (String c s) sep); [split; congruence |].
    rewrite <- IH. destruct (cut sep s) as [[a b]|]; split; congruence.
Qed.

Lemma cut_shorter (sep s a b : string) :
  sep <> EmptyString -> cut sep s = Some (a, b) ->
  String.length b < String.length s.
Proof.
  intros Hsep H. apply cut_some in H. subst s.
  rewrite !length_append. destruct sep; [congruence | simpl; lia].
Qed.

Lemma split_fuel_enough (sep : string) :
  sep <> EmptyString ->
  forall f1 f2 s,
    String.length s <= f1 -> String.length s <= f2 ->
    split_fuel f1 sep s = split_fuel f2 sep s.
Proof.
  intros Hsep. induction f1 as [|f1 IH]; intros f2 s H1 H2.
  - destruct f2; [reflexivity |]. simpl.
    destruct (cut sep s) as [[a b]|] eqn:E; [| reflexivity].
    apply cut_shorter in E; [lia | assumption].
  - simpl. destruct (cut sep s) as [[a b]|] eqn:E.
    + pose proof (cut_shorter _ _ _ _ Hsep E) as Hlt.
      destruct f2 as [|f2]; [lia |]. simpl. rewrite E.
      f_equal. apply IH; lia.
    + destruct f2; simpl; now rewrite E.
Qed.

(** The unfolding equation of [split]: enough fuel is given. *)
Lemma split_unfold (sep s : string) :
  sep <> EmptyString ->
  split sep s = match cut sep s with
                | None => [s]
                | Some (a, b) => a :: split sep b
                end.
Proof.
  intros Hsep. unfold split.
  remember (String.length s) as n eqn:Hn.
  destruct n as [|n]; cbn [split_fuel];
    destruct (cut sep s) as [[a b]|] eqn:E; try reflexivity;
    pose proof (cut_shorter _ _ _ _ Hsep E) as Hlt.
  - lia.
  - f_equal. apply split_fuel_enough; [assumption | lia | lia].
Qed.

Lemma split_first (sep s : string) :
  sep <> EmptyString -> nth_error (split sep s) 0 = Some (upto sep s).
Proof.
  intros Hsep. rewrite split_unfold by assumption. unfold upto.
  now destruct (cut sep s) as [[a b]|].
Qed.

Lemma split_second (sep s : string) :
  sep <> EmptyString ->
  nth_error (split sep s) 1 = match cut sep s with
                              | Some (_, rest) => Some (upto sep rest)
                              | None => None
                              end.
Proof.
  intros Hsep. rewrite split_unfold by assumption.
  destruct (cut sep s) as [[a b]|]; [| reflexivity].
  simpl. now apply split_first.
Qed.

End Split.

(** [cut] finds the leftmost occurrence, and fails only when there is none. *)
Lemma cut_spec (sep s : string) :
  match cut sep s with
  | Some (a, b) =>
      s = a ++ sep ++ b /\
      forall a' b', s = a' ++ sep ++ b' -> String.length a <= String.length a'
  | None => forall a b, s <> a ++ sep ++ b
  end.
Proof.
  destruct (cut sep s) as [[a b]|] eqn:E.
  - split; [now apply cut_some | now apply (cut_leftmost sep s a b)].
  - intros a b H. apply cut_none in E.
    assert (includes s sep = true) by (apply includes_iff; now exists a, b).
    congruence.
Qed.

(** ** Citation fields *)

Lemma year_here_iff (s y : string) :
  year_here s = Some y <-> year_at s EmptyString y.
Proof.
  unfold year_at. split.
  - intros H.
    destruct s as [|p [|d1 [|d2 [|d3 [|d4 [|q post]]]]]]; simpl in H;
      try discriminate.
    match type of H with (if ?c then _ else _) = _ => destruct c eqn:E end;
      [| discriminate].
    injection H as <-.
    apply andb_true_iff in E; destruct E as [E Hq].
    apply andb_true_iff in E; destruct E as [E H4].
    apply andb_true_iff in E; destruct E as [E H3].
    apply andb_true_iff in E; destruct E as [E H2].
    apply andb_true_iff in E; destruct E as [Hp H1].
    apply Ascii.eqb_eq in Hp, Hq. subst p q.
    split.
    + simpl. now rewrite H1, H2, H3, H4.
    + now exists post.
  - intros [Hd [post ->]].
    destruct y as [|d1 [|d2 [|d3 [|d4 [|]]]]]; simpl in Hd; try discriminate.
    simpl. now rewrite Hd.
Qed.

Lemma yearMatch_some (s y : string) :
  yearMatch s = Some y ->
  exists pre,
    year_at s pre y /\
    forall pre' y', year_at s pre' y' -> String.length pre <= String.length pre'.
Proof.
  induction s as [|c s IH]; cbn [yearMatch].
  - discriminate.
  - destruct (year_here (String c s)) as [y0|] eqn:E.
    + intros [= ->]. exists EmptyString. split; [now apply year_here_iff |].
      intros; simpl; lia.
    + intros H. destruct (IH H) as (pre & [Hd [post Hs]] & Hmin).
      exists (String c pre). split.
      * split; [exact Hd | exists post; simpl; now rewrite Hs].
      * intros pre' y' [Hd' [post' Hs']]. destruct pre' as [|x pre'].
        -- assert (year_here (String c s) = Some y')
             by (apply year_here_iff; split; [exact Hd' | now exists post']).
           congruence.
        -- simpl in Hs'. injection Hs' as _ Hs'. simpl. apply le_n_S.
           apply (Hmin pre' y'). split; [exact Hd' | now exists post'].
Qed.

Lemma yearMatch_none (s : string) :
  yearMatch s = None -> forall pre y, ~ year_at s pre y.
Proof.
  induction s as [|c s IH]; cbn [yearMatch].
  - intros _ pre y [Hd [post H]].
    destruct pre; simpl in H; discriminate.
  - destruct (year_here (String c s)) as [y0|] eqn:E; [discriminate |].
    intros H pre y [Hd [post Hs]]. destruct pre as [|x pre].
    + assert (year_here (String c s) = Some y)
        by (apply year_here_iff; split; [exact Hd | now exists post]).
      congruence.
    + simpl in Hs. injection Hs as _ Hs.
      apply (IH H pre y). split; [exact Hd | now exists post].
Qed.

Lemma or_empty_some (t : string) : or_empty (Some t) = t.
Proof. now destruct t. Qed.

Lemma title_chain_cut (citation : string) :
  title_chain citation
  = match cut ")." citation with
    | Some (_, rest) => Some (trim (upto "." (upto ")." rest)))
    | None => None
    end.
Proof.
  unfold title_chain. rewrite split_second by discriminate.
  destruct (cut ")." citation) as [[a rest]|]; [| reflexivity].
  now rewrite split_first by discriminate.
Qed.

(** C3, as the code has it.  For every line: [year] is the four digits of
    the leftmost parenthesized four-digit sequence, or empty when there is
    none; [authors] is the trimmed text before the first opening
    parenthesis, the whole trimmed line when there is none; [title] is
    empty when the line has no [).], and otherwise is the piece between
    the first [).] and the next [).] (or the end of the line), cut before
    its first [.] when it has one, and trimmed.  The sample line yields
    2020, its author and its title. *)
Theorem citation_fields (citation : string) :
  let c := parseCitation citation in
  ((exists pre,
      year_at citation pre (Citation.year c) /\
      forall pre' y', year_at citation pre' y' ->
                      String.length pre <= String.length pre') \/
   (Citation.year c = EmptyString /\ forall pre y, ~ year_at citation pre y)) /\
  Citation.authors c = trim (upto "(" citation) /\
  Citation.title c
  = match cut ")." citation with
    | Some (_, rest) => trim (upto "." (upto ")." rest))
    | None => EmptyString
    end /\
  parseCitation "Smith, J. (2020). Deep learning methods. Journal X."
  = Citation.mk "Smith, J. (2020). Deep learning methods. Journal X."
      "article" "2020" "Smith, J." "Deep learning methods".
Proof.
  cbv zeta. unfold parseCitation. cbn [Citation.year Citation.authors Citation.title].
  split; [| split; [| split]].
  - destruct (yearMatch citation) as [y|] eqn:E.
    + left. now apply yearMatch_some.
    + right. split; [reflexivity | now apply yearMatch_none].
  - pose proof (split_first "(" citation) as H.
    destruct (split "(" citation) as [|a l]; simpl in H.
    + now discriminate H.
    + simpl. injection H as ->; [reflexivity | discriminate].
  - rewrite title_chain_cut.
    destruct (cut ")." citation) as [[a rest]|]; [| reflexivity].
    apply or_empty_some.
  - vm_compute. reflexivity.
Qed.

(** The specification's wording of the title fails when no [.] follows the
    first [).]: the code keeps the rest of the line. *)
Lemma citation_title_counterexample :
  Citation.title (parseCitation "Smith, J. (2020). Deep learning methods")
  = "Deep learning methods" /\
  spec_title "Smith, J. (2020). Deep learning methods" = EmptyString /\
  Citation.title (parseCitation "Smith, J. (2020). Deep learning methods")
  <> spec_title "Smith, J. (2020). Deep learning methods".
Proof.
  split; [vm_compute; reflexivity | split; [vm_compute; reflexivity |]].
  vm_compute. discriminate.
Qed.

Example citation_second_paren :
  Citation.title (parseCitation "X (2020). Foo (bar). Baz.") = "Foo (bar".
Proof. vm_compute. reflexivity. Qed.

Example citation_no_parentheses :
  parseCitation "  Some plain line  "
  = Citation.mk "  Some plain line  " "article" EmptyString "Some plain line"
      EmptyString.
Proof. vm_compute. reflexivity. Qed.

(** ** Request validation *)

Lemma generate_paper_falsy (req : GenerateBody) :
  ToBoolean (topic req) = false -> generate_paper req = Ret topic_required.
Proof. intros H. unfold generate_paper. now rewrite H. Qed.

Lemma generate_paper_truthy (req : GenerateBody) :
  ToBoolean (topic req) = true ->
  exists contents k, generate_paper req = Post contents k.
Proof.
  intros H. unfold generate_paper. rewrite H. simpl.
  eexists. eexists. reflexivity.
Qed.

(** C4.  A request without a topic field is answered 400 with an error
    field and nothing is posted to the provider; whenever something is
    posted, the topic field is present. *)
Theorem generate_paper_requires_topic
    (req : GenerateBody) (provider : list Gemini.Content -> Outcome) :
  topic req = JUndefined ->
  generate_paper req = Ret topic_required /\
  result provider (generate_paper req) = Some topic_required /\
  status topic_required = 400 /\
  (exists error, body topic_required = ErrorBody error) /\
  posted provider (generate_paper req) = [] /\
  (forall req', posted provider (generate_paper req') <> [] ->
                topic req' <> JUndefined).
Proof.
  intros H.
  assert (E : generate_paper req = Ret topic_required)
    by (apply generate_paper_falsy; now rewrite H).
  rewrite E. repeat split.
  - now exists "Topic is required".
  - intros req' Hp Hu. apply Hp.
    rewrite generate_paper_falsy by (now rewrite Hu). reflexivity.
Qed.

Lemma generate_paper_requires_topic_witness :
  generate_paper (mkGenerateBody JUndefined) = Ret topic_required /\
  result (fun _ => Replied (JStr "Abstract")) (generate_paper (mkGenerateBody JUndefined))
  = Some topic_required /\
  status topic_required = 400 /\
  (exists error, body topic_required = ErrorBody error) /\
  posted (fun _ => Replied (JStr "Abstract")) (generate_paper (mkGenerateBody JUndefined))
  = [] /\
  (forall req',
     posted (fun _ => Replied (JStr "Abstract")) (generate_paper req') <> [] ->
     topic req' <> JUndefined).
Proof.
  apply (generate_paper_requires_topic (mkGenerateBody JUndefined)).
  reflexivity.
Defined.

Example generate_paper_posts_once :
  posted (fun _ => Thrown) (generate_paper (mkGenerateBody (JStr "graphs")))
  = [[ Gemini.mkContent "user" [generate_system_prompt];
       Gemini.mkContent "user"
         ["Generate a complete research paper about: graphs. Include all sections."] ]]
  /\
  result (fun _ => Thrown) (generate_paper (mkGenerateBody (JStr "graphs")))
  = Some (mkResponse 500 (ErrorBody "Failed to generate paper")).
Proof. split; reflexivity. Qed.

Lemma improve_writing_rejected (req : ImproveBody) :
  ToBoolean (js_or (prompt req) (text req)) = false \/
  ToBoolean (aspect req) = false ->
  improve_writing req = Ret content_required.
Proof.
  intros H. unfold improve_writing.
  destruct H as [-> | ->]; [reflexivity |].
  now rewrite orb_true_r.
Qed.

Lemma improve_writing_accepted (req : ImproveBody) :
  ToBoolean (js_or (prompt req) (text req)) = true ->
  ToBoolean (aspect req) = true ->
  exists system k,
    improve_writing req
    = Post [ system;
             Gemini.mkContent "user"
               ["Improve this academic writing:" ++ LF ++ LF ++
                ToString (js_or (prompt req) (text req))] ] k /\
    k Thrown = Ret (mkResponse 500 (ErrorBody "Failed to improve writing")) /\
    forall improved,
      k (Replied improved)
      = Ret (mkResponse 200 (ImprovedBody improved [aspect req])).
Proof.
  intros Hc Ha. unfold improve_writing. rewrite Hc, Ha. simpl.
  eexists. eexists. split; [reflexivity |]. split; reflexivity.
Qed.

(** C7.  With a content ([prompt || text]) and an aspect that pass the
    check, the handler posts once and answers a provider reply with status
    200 and [changes] equal to the one-element list of the request's
    aspect; any 200 answer of the handler has that [changes]; when prompt
    and text are both missing, or aspect is missing, the answer is 400. *)
Theorem improve_writing_changes (req : ImproveBody) :
  (ToBoolean (js_or (prompt req) (text req)) = true ->
   ToBoolean (aspect req) = true ->
   exists contents k,
     improve_writing req = Post contents k /\
     forall improved,
       k (Replied improved)
       = Ret (mkResponse 200 (ImprovedBody improved [aspect req]))) /\
  (forall provider r,
     result provider (improve_writing req) = Some r -> status r = 200 ->
     exists improved, body r = ImprovedBody improved [aspect req]) /\
  ((prompt req = JUndefined /\ text req = JUndefined) \/
   aspect req = JUndefined ->
   improve_writing req = Ret content_required /\ status content_required = 400).
Proof.
  split; [| split].
  - intros Hc Ha.
    destruct (improve_writing_accepted req Hc Ha) as (sys & k & E & _ & Hk).
    now exists [sys; Gemini.mkContent "user"
                  ["Improve this academic writing:" ++ LF ++ LF ++
                   ToString (js_or (prompt req) (text req))]], k.
  - intros provider r Hr Hs.
    destruct (ToBoolean (js_or (prompt req) (text req))) eqn:Hc;
      [destruct (ToBoolean (aspect req)) eqn:Ha |].
    + destruct (improve_writing_accepted req Hc Ha) as (sys & k & E & Ht & Hk).
      rewrite E in Hr. unfold result in Hr. simpl in Hr.
      match type of Hr with context [k ?o] => destruct o as [|improved] end.
      * rewrite Ht in Hr. simpl in Hr. injection Hr as <-. discriminate Hs.
      * rewrite Hk in Hr. simpl in Hr. injection Hr as <-. now exists improved.
    + rewrite improve_writing_rejected in Hr by now right.
      injection Hr as <-. discriminate Hs.
    + rewrite improve_writing_rejected in Hr by now left.
      injection Hr as <-. discriminate Hs.
  - intros H. split; [| reflexivity]. apply improve_writing_rejected.
    destruct H as [[Hp Ht] | Ha].
    + left. unfold js_or. now rewrite Hp, Ht.
    + right. now rewrite Ha.
Qed.

Lemma improve_writing_changes_witness :
  let req := mkImproveBody JUndefined (JStr "x") (JStr "clarity") None in
  (exists contents k,
     improve_writing req = Post contents k /\
     forall improved,
       k (Replied improved)
       = Ret (mkResponse 200 (ImprovedBody improved [JStr "clarity"]))) /\
  improve_writing (mkImproveBody JUndefined JUndefined (JStr "clarity") None)
  = Ret content_required /\
  improve_writing (mkImproveBody (JStr "x") JUndefined JUndefined None)
  = Ret content_required.
Proof.
  split; [| split].
  - apply (proj1 (improve_writing_changes
                    (mkImproveBody JUndefined (JStr "x") (JStr "clarity") None)));
      reflexivity.
  - apply (proj2 (proj2 (improve_writing_changes
                    (mkImproveBody JUndefined JUndefined (JStr "clarity") None)))).
    left. split; reflexivity.
  - apply (proj2 (proj2 (improve_writing_changes
                    (mkImproveBody (JStr "x") JUndefined JUndefined None)))).
    right. reflexivity.
Defined.

Example improve_writing_clarity :
  result (fun _ => Replied (JStr "better x"))
    (improve_writing (mkImproveBody JUndefined (JStr "x") (JStr "clarity") None))
  = Some (mkResponse 200 (ImprovedBody (JStr "better x") [JStr "clarity"])).
Proof. reflexivity. Qed.

(** C9.  The checks test falsiness, so an empty string is rejected like an
    absent field: an empty topic on /generate-paper, and on
    /api/ai/improve-writing an empty chosen content ([prompt || text]) or
    an empty aspect, get the same 400 answer as the request with the fields
    absent, and nothing is posted. *)
Theorem empty_string_is_missing (greq : GenerateBody) (ireq : ImproveBody) :
  (topic greq = JStr EmptyString ->
   generate_paper greq = Ret topic_required /\
   generate_paper greq = generate_paper (mkGenerateBody JUndefined)) /\
  (js_or (prompt ireq) (text ireq) = JStr EmptyString \/
   aspect ireq = JStr EmptyString ->
   improve_writing ireq = Ret content_required /\
   improve_writing ireq
   = improve_writing (mkImproveBody JUndefined JUndefined JUndefined (context ireq))) /\
  status topic_required = 400 /\ status content_required = 400.
Proof.
  split; [| split; [| split; reflexivity]].
  - intros H. split; [| rewrite (generate_paper_falsy (mkGenerateBody _)) by reflexivity];
      apply generate_paper_falsy; now rewrite H.
  - intros H.
    assert (E : improve_writing ireq = Ret content_required).
    { apply improve_writing_rejected. destruct H as [-> | ->]; auto. }
    split; [exact E |]. rewrite E. symmetry.
    apply improve_writing_rejected. now left.
Qed.

Lemma empty_string_is_missing_witness :
  (generate_paper (mkGenerateBody (JStr EmptyString)) = Ret topic_required /\
   generate_paper (mkGenerateBody (JStr EmptyString))
   = generate_paper (mkGenerateBody JUndefined)) /\
  improve_writing (mkImproveBody JUndefined (JStr EmptyString) (JStr "clarity") None)
  = Ret content_required /\
  improve_writing (mkImproveBody (JStr "x") JUndefined (JStr EmptyString) None)
  = Ret content_required.
Proof.
  split; [| split].
  - apply (proj1 (empty_string_is_missing
                    (mkGenerateBody (JStr EmptyString))
                    (mkImproveBody JUndefined JUndefined JUndefined None))).
    reflexivity.
  - apply (proj1 (proj2 (empty_string_is_missing
                    (mkGenerateBody JUndefined)
                    (mkImproveBody JUndefined (JStr EmptyString) (JStr "clarity") None)))).
    left. reflexivity.
  - apply (proj1 (proj2 (empty_string_is_missing
                    (mkGenerateBody JUndefined)
                    (mkImproveBody (JStr "x") JUndefined (JStr EmptyString) None)))).
    right. reflexivity.
Defined.

Lemma truthy_nonempty (s : string) : s <> EmptyString -> truthy s = true.
Proof. destruct s; [congruence | reflexivity]. Qed.

(** C10.  When prompt is a non-empty string, the handler does not depend on
    the text field: whatever text is, the answer is the same, and every
    request posted to the provider asks to improve prompt. *)
Theorem prompt_takes_precedence (req : ImproveBody) (p : string) :
  prompt req = JStr p -> p <> EmptyString ->
  (forall t,
     improve_writing req
     = improve_writing (mkImproveBody (prompt req) t (aspect req) (context req))) /\
  (ToBoolean (aspect req) = true ->
   exists system k,
     improve_writing req
     = Post [ system;
              Gemini.mkContent "user"
                ["Improve this academic writing:" ++ LF ++ LF ++ p] ] k) /\
  (forall provider,
     Forall (fun contents =>
               exists system,
                 contents
                 = [ system;
                     Gemini.mkContent "user"
                       ["Improve this academic writing:" ++ LF ++ LF ++ p] ])
            (posted provider (improve_writing req))).
Proof.
  intros Hp Hne. pose proof (truthy_nonempty p Hne) as Ht.
  assert (Hor : forall t, js_or (prompt req) t = JStr p).
  { intros t. unfold js_or. rewrite Hp. simpl. now rewrite Ht. }
  assert (Hpost : ToBoolean (aspect req) = true ->
            exists system k,
              improve_writing req
              = Post [ system;
                       Gemini.mkContent "user"
                         ["Improve this academic writing:" ++ LF ++ LF ++ p] ] k).
  { intros Ha.
    destruct (improve_writing_accepted req) as (sys & k & E & _); auto.
    - rewrite Hor. exact Ht.
    - exists sys, k. now rewrite E, Hor. }
  split; [| split].
  - intros t. unfold improve_writing. cbn [prompt text aspect context].
    now rewrite !Hor.
  - exact Hpost.
  - intros provider. destruct (ToBoolean (aspect req)) eqn:Ha.
    + destruct (Hpost eq_refl) as (sys & k & E).
      destruct (improve_writing_accepted req) as (sys' & k' & E' & Hthrown & Hrep);
        auto; [rewrite Hor; exact Ht |].
      rewrite E' in E. injection E as -> _.
      rewrite E'. unfold posted. cbn [run].
      destruct (provider _) as [|v]; [rewrite Hthrown | rewrite Hrep];
        simpl; constructor; try constructor; rewrite Hor; now exists sys.
    + rewrite improve_writing_rejected by now right. constructor.
Qed.

Lemma prompt_takes_precedence_witness :
  let req := mkImproveBody (JStr "draft") (JStr "other") (JStr "clarity") None in
  (forall t,
     improve_writing req
     = improve_writing (mkImproveBody (JStr "draft") t (JStr "clarity") None)) /\
  (ToBoolean (JStr "clarity") = true ->
   exists system k,
     improve_writing req
     = Post [ system;
              Gemini.mkContent "user"
                ["Improve this academic writing:" ++ LF ++ LF ++ "draft"] ] k) /\
  (forall provider,
     Forall (fun contents =>
               exists system,
                 contents
                 = [ system;
                     Gemini.mkContent "user"
                       ["Improve this academic writing:" ++ LF ++ LF ++ "draft"] ])
            (posted provider (improve_writing req))).
Proof.
  apply (prompt_takes_precedence
           (mkImproveBody (JStr "draft") (JStr "other") (JStr "clarity") None)
           "draft").
  - reflexivity.
  - discriminate.
Defined.

Example prompt_over_text_posted :
  posted (fun _ => Thrown)
    (improve_writing
       (mkImproveBody (JStr "draft") (JStr "other") (JStr "clarity")
          (Some (mkContext JUndefined (JStr "Graphs") JUndefined))))
  = [[ Gemini.mkContent "user"
         ["You are an expert academic writer working on a paper titled " ++ DQ
          ++ "Graphs" ++ DQ ++ "." ++ LF ++ LF];
       Gemini.mkContent "user"
         ["Improve this academic writing:" ++ LF ++ LF ++ "draft"] ]].
Proof. reflexivity. Qed.

(** * Further properties *)

(** ** The completion gateway *)

(** X1.  The request posted for a message list has one item per message, in
    order, each with the message content as its single part; the role
    "system" is sent as "user", any other role is kept, so no item ever
    carries the role "system".  A failure of the post is rethrown and a
    reply is returned as it is. *)
Theorem create_contents (messages : list ChatMessage) :
  exists contents k,
    create messages = Post contents k /\
    List.length contents = List.length messages /\
    (forall i msg,
       nth_error messages i = Some msg ->
       exists item,
         nth_error contents i = Some item /\
         Gemini.parts item = [content msg] /\
         (role msg = "system" -> Gemini.role item = "user") /\
         (role msg <> "system" -> Gemini.role item = role msg)) /\
    Forall (fun item => Gemini.role item <> "system") contents /\
    k Thrown = Throw /\
    forall text, k (Replied text) = Ret text.
Proof.
  unfold create. eexists. eexists. split; [reflexivity |].
  split; [apply length_map |]. split; [| split; [| split; reflexivity]].
  - intros i msg Hi. eexists. split.
    + rewrite nth_error_map, Hi. reflexivity.
    + simpl. split; [reflexivity |]. split.
      * intros ->. reflexivity.
      * intros Hne. apply String.eqb_neq in Hne. now rewrite Hne.
  - apply Forall_map, Forall_forall. intros msg _. simpl.
    destruct (String.eqb (role msg) "system") eqn:E; [discriminate |].
    now apply String.eqb_neq.
Qed.

(** ** Outcomes of the handlers *)








(** X6.  A prompt that fails the truthiness test (absent, null, false, zero or
    the empty string) is ignored: the handler behaves as if it were absent,
    and when text and aspect pass the check the request posted asks to
    improve text. *)
Theorem text_used_when_prompt_falsy (req : ImproveBody) :
  ToBoolean (prompt req) = false ->
  improve_writing req
  = improve_writing (mkImproveBody JUndefined (text req) (aspect req) (context req)) /\
  (ToBoolean (text req) = true -> ToBoolean (aspect req) = true ->
   exists system k,
     improve_writing req
     = Post [ system;
              Gemini.mkContent "user"
                ["Improve this academic writing:" ++ LF ++ LF ++
                 ToString (text req)] ] k).
Proof.
  intros Hp.
  assert (Hor : js_or (prompt req) (text req) = text req)
    by (unfold js_or; now rewrite Hp).
  split.
  - unfold improve_writing. cbn [prompt text aspect context].
    rewrite Hor. reflexivity.
  - intros Ht Ha.
    destruct (improve_writing_accepted req) as (sys & k & E & _);
      [now rewrite Hor | exact Ha |].
    exists sys, k. now rewrite E, Hor.
Qed.

Lemma text_used_when_prompt_falsy_witness :
  let req := mkImproveBody (JStr EmptyString) (JStr "x") (JStr "clarity") None in
  improve_writing req
  = improve_writing (mkImproveBody JUndefined (JStr "x") (JStr "clarity") None) /\
  (ToBoolean (JStr "x") = true -> ToBoolean (JStr "clarity") = true ->
   exists system k,
     improve_writing req
     = Post [ system;
              Gemini.mkContent "user"
                ["Improve this academic writing:" ++ LF ++ LF ++ "x"] ] k).
Proof.
  apply (text_used_when_prompt_falsy
           (mkImproveBody (JStr EmptyString) (JStr "x") (JStr "clarity") None)).
  reflexivity.
Defined.

(** X7.  The system prompt uses a hint only when it passes the truthiness test:
    with no usable hint (no context object, or all three hints absent or
    empty) it is the fixed text about "a research paper" followed by two
    line breaks, and a hint that fails the test leaves the prompt as if it
    were absent. *)
Theorem systemPrompt_hints (ctx : Context) :
  let falsy_out (v : JsValue) := if ToBoolean v then v else JUndefined in
  systemPrompt ctx
  = systemPrompt (mkContext (falsy_out (sectionTitle ctx))
                            (falsy_out (paperTitle ctx))
                            (falsy_out (abstract ctx))) /\
  (ToBoolean (sectionTitle ctx) = false ->
   ToBoolean (paperTitle ctx) = false ->
   ToBoolean (abstract ctx) = false ->
   systemPrompt ctx
   = "You are an expert academic writer working on a research paper." ++ LF ++ LF).
Proof.
  cbv zeta. unfold systemPrompt. cbn [sectionTitle paperTitle abstract]. split.
  - destruct (ToBoolean (sectionTitle ctx)) eqn:E1,
             (ToBoolean (paperTitle ctx)) eqn:E2,
             (ToBoolean (abstract ctx)) eqn:E3;
      rewrite ?E1, ?E2, ?E3; reflexivity.
  - intros -> -> ->. reflexivity.
Qed.

Lemma systemPrompt_hints_witness :
  systemPrompt (mkContext (JStr EmptyString) JNull (JNum "0"))
  = "You are an expert academic writer working on a research paper." ++ LF ++ LF.
Proof.
  apply (proj2 (systemPrompt_hints (mkContext (JStr EmptyString) JNull (JNum "0"))));
    reflexivity.
Defined.



(** ** More on heading detection *)

Lemma length_toLowerCase (s : string) :
  String.length (toLowerCase s) = String.length s.
Proof. induction s as [|c s IH]; simpl; [reflexivity | now rewrite IH]. Qed.




Lemma ci_substring_length (title line : string) :
  ci_substring title line -> String.length title <= String.length line.
Proof.
  intros (pre & mid & post & -> & H).
  rewrite !length_append.
  rewrite <- (length_toLowerCase title), <- H, length_toLowerCase. lia.
Qed.

(** X10.  A line selected as the heading of a title is at least as long as the
    title and less than ten characters longer; so a heading line has
    between 7 and 26 characters, and empty lines and lines of 27 or more
    characters are always body lines. *)
Theorem heading_length_window (line title : string) :
  sectionMatch line = Some title ->
  String.length title <= String.length line < String.length title + 10 /\
  7 <= String.length line <= 26.
Proof.
  intros H. destruct (sectionMatch_some _ _ H) as [Hin Hm].
  apply mentions_iff in Hm. destruct Hm as [Hci Hlt].
  apply ci_substring_length in Hci.
  split; [lia |].
  unfold PAPER_SECTIONS in Hin; simpl in Hin.
  repeat (destruct Hin as [<-|Hin]; [simpl in *; lia |]). contradiction.
Qed.

Lemma heading_length_window_witness :
  String.length "Results" <= String.length "4. Results:"
  < String.length "Results" + 10 /\
  7 <= String.length "4. Results:" <= 26.
Proof. apply (heading_length_window "4. Results:" "Results"). reflexivity. Defined.

(** ** More on the returned mapping *)

Lemma obj_get_some_in (k v : string) (o : Sections) :
  obj_get k o = Some v -> In (k, v) o.
Proof.
  induction o as [|[k0 v0] o IH]; simpl; [discriminate |].
  destruct (String.eqb k0 k) eqn:E.
  - apply String.eqb_eq in E. intros [= ->]. left. now subst.
  - intros H. right. now apply IH.
Qed.

Lemma in_keys_obj_get (k : string) (o : Sections) :
  In k (keys o) -> exists v, obj_get k o = Some v.
Proof.
  induction o as [|[k0 v0] o IH]; simpl; [intros [] |].
  destruct (String.eqb k0 k) eqn:E; [intros _; now exists v0 |].
  intros [->|H]; [now rewrite String.eqb_refl in E | now apply IH].
Qed.

Lemma last_occurrence {A : Type} (P : A -> Prop)
    (dec : forall x, {P x} + {~ P x}) (l : list A) :
  Exists P l ->
  exists before x after,
    l = (before ++ x :: after)%list /\ P x /\ Forall (fun y => ~ P y) after.
Proof.
  induction l as [|a l IH]; intros H; [inversion H |].
  destruct (Exists_dec P l dec) as [Hl|Hl].
  - destruct (IH Hl) as (b & x & r & -> & Hx & Hr). now exists (a :: b), x, r.
  - inversion H; subst; [| contradiction].
    exists [], a, l. split; [reflexivity | split; [assumption |]].
    now apply Forall_Exists_neg.
Qed.

Lemma option_string_dec (x y : option string) : {x = y} + {x <> y}.
Proof. decide equality. apply string_dec. Qed.

(** The body stored for the last heading of a title, on lines. *)
Lemma last_heading_body (before after : list string) (h title : string) :
  sectionMatch h = Some title ->
  Forall (fun l => sectionMatch l <> Some title) after ->
  obj_get title (segmentLines (before ++ h :: after))
  = Some (trim (join LF (body_lines after))).
Proof.
  intros Hh Hafter. unfold segmentLines. rewrite fold_left_app. simpl.
  rewrite (seg_step_heading _ _ _ Hh).
  rewrite (current_section_body title); simpl; auto.
  apply titles_truthy. now apply sectionMatch_some in Hh.
Qed.

(** X11.  The keys of the returned mapping are canonical titles, each at most
    once, so there are at most eight sections; and a title is a key exactly
    when some line of the text is detected as a heading for it. *)
Theorem segment_keys (content : string) :
  Forall (fun k => In k PAPER_SECTIONS) (keys (segment content)) /\
  NoDup (keys (segment content)) /\
  List.length (segment content) <= 8 /\
  (forall title,
     In title (keys (segment content)) <->
     exists line, In line (split LF content) /\ sectionMatch line = Some title).
Proof.
  assert (Hiff : forall title,
            In title (keys (segment content)) <->
            exists line, In line (split LF content) /\
                         sectionMatch line = Some title).
  { intros title. unfold segment. split.
    - intros H. apply in_keys_obj_get in H. destruct H as [v Hv].
      apply obj_get_some_in, segmentLines_bodies in Hv.
      destruct Hv as (b & h & a & -> & Hh & _). exists h. split; [| exact Hh].
      apply in_or_app. right. now left.
    - intros (line & Hin & Hm).
      destruct (last_occurrence (fun l => sectionMatch l = Some title)
                  (fun l => option_string_dec (sectionMatch l) (Some title))
                  (split LF content)) as (b & h & a & -> & Hh & Ha).
      { apply Exists_exists. now exists line. }
      eapply obj_get_in_keys. now apply last_heading_body. }
  assert (Hcanon : Forall (fun k => In k PAPER_SECTIONS) (keys (segment content))).
  { apply Forall_forall. intros k Hk. apply Hiff in Hk.
    destruct Hk as (line & _ & Hm). now apply sectionMatch_some in Hm. }
  assert (Hnd : NoDup (keys (segment content))) by apply segmentLines_NoDup.
  split; [exact Hcanon |]. split; [exact Hnd |]. split; [| exact Hiff].
  replace (List.length (segment content))
    with (List.length (keys (segment content)))
    by (unfold keys; apply length_map).
  change 8 with (List.length PAPER_SECTIONS).
  apply NoDup_incl_length; [exact Hnd |].
  intros k Hk. rewrite Forall_forall in Hcanon. now apply Hcanon.
Qed.

Lemma add_key_cons_other (k k' : string) (l : list string) :
  k' <> k -> add_key (k' :: l) k = k' :: add_key l k.
Proof.
  intros Hne. unfold add_key.
  destruct (in_dec string_dec k (k' :: l)) as [Hin|Hnin],
           (in_dec string_dec k l) as [Hl|Hl]; try reflexivity.
  - destruct Hin as [->|Hin]; [congruence | contradiction].
  - exfalso. apply Hnin. now right.
Qed.

Lemma keys_obj_set_add (k v : string) (o : Sections) :
  keys (obj_set k v o) = add_key (keys o) k.
Proof.
  induction o as [|[k0 v0] o IH]; simpl; [reflexivity |].
  destruct (String.eqb k0 k) eqn:E; simpl.
  - apply String.eqb_eq in E. subst k0. unfold add_key.
    destruct (in_dec string_dec k (k :: keys o)) as [_|Hn]; [reflexivity |].
    exfalso. apply Hn. now left.
  - apply String.eqb_neq in E. now rewrite add_key_cons_other, IH.
Qed.

Lemma keys_flush_content (o : Sections) (cur : string) (c1 c2 : list string) :
  keys (flush (mkSeg o cur c1)) = keys (flush (mkSeg o cur c2)).
Proof.
  unfold flush; simpl. destruct (truthy cur); [| reflexivity].
  now rewrite !keys_obj_set_add.
Qed.

Lemma headings_app (a b : list string) :
  headings (a ++ b) = (headings a ++ headings b)%list.
Proof. apply flat_map_app. Qed.

Lemma first_seen_snoc (l : list string) (k : string) :
  first_seen (l ++ [k]) = add_key (first_seen l) k.
Proof. unfold first_seen. now rewrite fold_left_app. Qed.

Lemma fold_keys_order (lines : list string) :
  forall processed st,
    keys (flush st) = first_seen (headings processed) ->
    keys (flush (fold_left seg_step lines st))
    = first_seen (headings (processed ++ lines)).
Proof.
  induction lines as [|l lines IH]; intros processed st H; simpl.
  - now rewrite app_nil_r.
  - replace (processed ++ l :: lines)%list with ((processed ++ [l]) ++ lines)%list
      by (now rewrite <- app_assoc).
    apply IH. rewrite headings_app. simpl.
    destruct (seg_step_cases st l) as [(t & Hs & Hh & ->)|[Hh ->]].
    + rewrite Hs. simpl. rewrite first_seen_snoc, <- H.
      unfold flush at 1. simpl.
      rewrite (titles_truthy t) by (now apply sectionMatch_some in Hs).
      apply keys_obj_set_add.
    + destruct (sectionMatch l) as [t|] eqn:Hs.
      * assert (isHeading l = true) by (apply isHeading_some; now exists t).
        congruence.
      * simpl. rewrite app_nil_r, <- H. unfold seg_body.
        destruct st as [o cur c]. simpl.
        destruct (truthy cur); [apply keys_flush_content | reflexivity].
Qed.

(** X12.  The keys of the returned mapping come in the order in which their
    titles are first detected in the text, not in the canonical order. *)
Theorem segment_keys_in_text_order (content : string) :
  keys (segment content) = first_seen (headings (split LF content)).
Proof.
  unfold segment, segmentLines.
  now rewrite (fold_keys_order (split LF content) [] seg_init eq_refl).
Qed.

Example keys_follow_text_order :
  keys (segment ("Results" ++ LF ++ "r" ++ LF ++ "Abstract" ++ LF ++ "a" ++ LF ++
                 "Results" ++ LF ++ "again"))
  = ["Results"; "Abstract"].
Proof. vm_compute. reflexivity. Qed.

(** ** Lines and texts *)

Lemma split_nonempty (sep s : string) :
  exists x l, split sep s = x :: l.
Proof.
  unfold split. destruct (String.length s); simpl;
    destruct (cut sep s) as [[a b]|]; eexists; eexists; reflexivity.
Qed.

Lemma join_cons (sep x : string) (l : list string) :
  l <> [] -> join sep (x :: l) = x ++ sep ++ join sep l.
Proof. destruct l; [congruence | reflexivity]. Qed.

Lemma join_split_fuel (sep : string) :
  sep <> EmptyString ->
  forall n s, String.length s <= n -> join sep (split sep s) = s.
Proof.
  intros Hsep. induction n as [|n IH]; intros s Hn;
    rewrite split_unfold by assumption;
    destruct (cut sep s) as [[a b]|] eqn:E; try reflexivity;
    pose proof (cut_shorter _ _ _ _ Hsep E) as Hlt; [lia |].
  destruct (split_nonempty sep b) as (x & l & Hx).
  rewrite join_cons by (rewrite Hx; discriminate).
  rewrite IH by lia. symmetry. now apply cut_some.
Qed.

(** X13.  Splitting a text at a separator and joining the pieces with it gives
    the text back: the lines of the provider's text lose nothing. *)
Theorem join_split (sep s : string) :
  sep <> EmptyString -> join sep (split sep s) = s.
Proof. intros Hsep. now apply (join_split_fuel sep Hsep (String.length s)). Qed.

Lemma join_split_witness :
  join LF (split LF ("## Abstract" ++ LF ++ LF ++ "Foo" ++ LF))
  = "## Abstract" ++ LF ++ LF ++ "Foo" ++ LF.
Proof. apply join_split. discriminate. Defined.

Lemma cut_unit_first (c : ascii) (x rest : string) :
  includes x (String c EmptyString) = false ->
  cut (String c EmptyString) (x ++ String c rest) = Some (x, rest).
Proof.
  induction x as [|d x IH]; intros H.
  - simpl. now rewrite Ascii.eqb_refl.
  - cbn [includes] in H.
    destruct (startsWith (String d x) (String c EmptyString)) eqn:E;
      [discriminate |].
    cbn [append cut]. simpl in E. rewrite andb_true_r in E.
    simpl. rewrite andb_true_r, E.
    change (match cut (String c EmptyString) (x ++ String c rest) with
            | Some (a, b) => Some (String d a, b)
            | None => None
            end = Some (String d x, rest)).
    now rewrite IH.
Qed.

(** X14.  Joining lines that hold no line break and splitting again gives the
    lines back, so the segmenter run on the joined text is the loop run on
    those lines. *)
Theorem split_join_lines (lines : list string) :
  lines <> [] ->
  Forall (fun l => includes l LF = false) lines ->
  split LF (join LF lines) = lines /\
  segment (join LF lines) = segmentLines lines.
Proof.
  intros Hne Hall.
  assert (H : split LF (join LF lines) = lines).
  { destruct lines as [|x l]; [congruence |]. clear Hne.
    revert x Hall. induction l as [|y l IH]; intros x Hall;
      inversion Hall as [|? ? Hx Hl]; subst;
      rewrite split_unfold by discriminate.
    - simpl. apply cut_none in Hx. now rewrite Hx.
    - rewrite join_cons by discriminate.
      change (LF ++ join LF (y :: l)) with (String "010"%char (join LF (y :: l))).
      pose proof (cut_unit_first "010"%char x (join LF (y :: l)) Hx) as Hc.
      change (String "010"%char EmptyString) with LF in Hc. rewrite Hc.
      f_equal. now apply IH. }
  split; [exact H |]. unfold segment. now rewrite H.
Qed.

Lemma split_join_lines_witness :
  split LF (join LF ["## Abstract"; EmptyString; "Foo"])
  = ["## Abstract"; EmptyString; "Foo"] /\
  segment (join LF ["## Abstract"; EmptyString; "Foo"])
  = segmentLines ["## Abstract"; EmptyString; "Foo"].
Proof.
  apply split_join_lines; [discriminate | repeat constructor].
Defined.

(** ** More on the citation extractor *)

Lemma trimEnd_head (c : ascii) (r : string) :
  is_space c = false -> exists t, trimEnd (String c r) = String c t.
Proof.
  intros Hc. simpl. destruct (trimEnd r) as [|d t].
  - rewrite Hc. now exists EmptyString.
  - now exists (String d t).
Qed.

Lemma truthy_trim (s : string) : truthy (trim s) = negb (all_space s).
Proof.
  unfold trim. induction s as [|c s IH]; [reflexivity |].
  cbn [trimStart all_space]. destruct (is_space c) eqn:Hc; [exact IH |].
  destruct (trimEnd_head c s Hc) as [t ->]. reflexivity.
Qed.

Lemma includes_trim (s x : string) :
  includes s x = false -> includes (trim s) x = false.
Proof.
  intros H. destruct (includes (trim s) x) eqn:E; [| reflexivity].
  apply includes_iff in E. destruct E as (pre & post & E).
  destruct (trim_spec s) as [(lead & trail & Hs & _) _].
  assert (includes s x = true); [| congruence].
  apply includes_iff. exists (lead ++ pre), (post ++ trail).
  rewrite Hs at 1. rewrite E. now rewrite !append_assoc.
Qed.

Lemma upto_excludes (sep s : string) :
  sep <> EmptyString -> includes (upto sep s) sep = false.
Proof.
  intros Hsep. unfold upto. destruct (cut sep s) as [[a b]|] eqn:E.
  - destruct (includes a sep) eqn:Ha; [| reflexivity].
    apply includes_iff in Ha. destruct Ha as (p & q & Ha).
    pose proof (cut_some _ _ _ _ E) as Hs.
    pose proof (cut_leftmost _ _ _ _ E p (q ++ sep ++ b)) as Hle.
    rewrite Hs, Ha, !append_assoc in Hle. specialize (Hle eq_refl).
    rewrite !length_append in Hle.
    destruct sep; [congruence | simpl in Hle; lia].
  - now apply cut_none.
Qed.

Lemma authors_upto (line : string) :
  Citation.authors (parseCitation line) = trim (upto "(" line).
Proof.
  unfold parseCitation. cbn [Citation.authors].
  pose proof (split_first "(" line) as H.
  destruct (split "(" line) as [|a l]; simpl in H.
  - now discriminate H.
  - simpl. injection H as ->; [reflexivity | discriminate].
Qed.

Lemma title_cut (line : string) :
  Citation.title (parseCitation line)
  = match cut ")." line with
    | Some (_, rest) => trim (upto "." (upto ")." rest))
    | None => EmptyString
    end.
Proof.
  unfold parseCitation. cbn [Citation.title]. rewrite title_chain_cut.
  destruct (cut ")." line) as [[a rest]|]; [| reflexivity].
  apply or_empty_some.
Qed.

(** X15.  The extractor gives one record per line that is not made of white space
    only, in the order of the text: the [text] fields are exactly those
    lines, each record is the parse of its own [text] with [type]
    "article", and there are no more records than lines. *)
Theorem extractCitations_records (content : string) :
  map Citation.text (extractCitations content)
  = filter (fun line => negb (all_space line)) (split LF content) /\
  Forall (fun c => c = parseCitation (Citation.text c) /\
                   Citation.type c = "article" /\
                   all_space (Citation.text c) = false)
         (extractCitations content) /\
  List.length (extractCitations content) <= List.length (split LF content).
Proof.
  unfold extractCitations.
  rewrite (filter_ext (fun c => truthy (trim c)) (fun l => negb (all_space l)))
    by (intros; apply truthy_trim).
  split; [| split].
  - rewrite map_map. simpl. apply map_id.
  - apply Forall_map, Forall_forall. intros l Hl. apply filter_In in Hl.
    simpl. split; [reflexivity | split; [reflexivity |]].
    destruct Hl as [_ Hl]. now apply negb_true_iff in Hl.
  - rewrite length_map. apply filter_length_le.
Qed.

Example extractCitations_skips_blank :
  map Citation.year
    (extractCitations ("A (2020). T. J." ++ LF ++ "   " ++ LF ++ LF ++ "B (1999). U. K."))
  = ["2020"; "1999"].
Proof. vm_compute. reflexivity. Qed.

(** X16.  The [year] of a record is either empty or exactly four decimal
    digits. *)
Theorem citation_year_shape (line : string) :
  Citation.year (parseCitation line) = EmptyString \/
  four_digits (Citation.year (parseCitation line)) = true.
Proof.
  unfold parseCitation. cbn [Citation.year].
  destruct (yearMatch line) as [y|] eqn:E; [right | now left].
  apply yearMatch_some in E. destruct E as (pre & [Hd _] & _). exact Hd.
Qed.

(** X17.  [authors] never holds an opening parenthesis and [title] never holds a
    period; neither begins or ends with white space. *)
Theorem citation_authors_title_shape (line : string) :
  let c := parseCitation line in
  includes (Citation.authors c) "(" = false /\
  includes (Citation.title c) "." = false /\
  starts_with_space (Citation.authors c) = false /\
  ends_with_space (Citation.authors c) = false /\
  starts_with_space (Citation.title c) = false /\
  ends_with_space (Citation.title c) = false.
Proof.
  cbv zeta. rewrite authors_upto, title_cut.
  split; [apply includes_trim, upto_excludes; discriminate |].
  destruct (cut ")." line) as [[a rest]|].
  - split; [apply includes_trim, upto_excludes; discriminate |].
    repeat split; apply trim_spec.
  - repeat split; apply trim_spec.
Qed.

Lemma yearMatch_needs_paren (line : string) :
  includes line "(" = false -> yearMatch line = None.
Proof.
  intros H. destruct (yearMatch line) as [y|] eqn:E; [| reflexivity].
  apply yearMatch_some in E. destruct E as (pre & [_ [post Hs]] & _).
  assert (includes line "(" = true); [| congruence].
  apply includes_iff. exists pre, (y ++ ")" ++ post). exact Hs.
Qed.

(** X18.  A line without parentheses yields an empty year, the whole trimmed line
    as authors and an empty title. *)
Theorem citation_without_parentheses (line : string) :
  includes line "(" = false -> includes line ")" = false ->
  parseCitation line
  = Citation.mk line "article" EmptyString (trim line) EmptyString.
Proof.
  intros Hopen Hclose.
  pose proof (authors_upto line) as Ha. pose proof (title_cut line) as Ht.
  unfold parseCitation in *. cbn [Citation.authors Citation.title] in Ha, Ht.
  rewrite Ha, Ht, (yearMatch_needs_paren line Hopen). f_equal.
  - unfold upto. apply cut_none in Hopen. now rewrite Hopen.
  - destruct (cut ")." line) as [[a rest]|] eqn:E; [| reflexivity].
    apply cut_some in E.
    assert (includes line ")" = true); [| congruence].
    apply includes_iff. exists a, ("." ++ rest). exact E.
Qed.

Lemma citation_without_parentheses_witness :
  parseCitation "  Knuth, The Art of Computer Programming "
  = Citation.mk "  Knuth, The Art of Computer Programming " "article"
      EmptyString (trim "  Knuth, The Art of Computer Programming ") EmptyString.
Proof. apply citation_without_parentheses; reflexivity. Defined.
